(** * DockerMachineHypervisor: a shallow embedding of
      [golem/docker/hypervisor/docker_machine.py]

    The module manages one docker-machine VM: it lists and creates VMs,
    exports the VM's environment into the process, and repairs a broken
    environment through a cascade (regenerate certificates, restart,
    recreate).  Everything it does goes through an external tool, so the
    embedding is a state-and-exception monad over an explicit [World] that
    answers every external call. *)

From Stdlib Require Import ZArith NArith String Ascii DecimalString.
From stdpp Require Import gmap list.

Set Default Proof Using "Type".
Set Warnings "-register-all".
Set Warnings "-notation-overridden".
Set Warnings "-notation-incompatible-prefix".
Local Open Scope N_scope.

(** ** Python [str] and [bytes] *)

(** A Python [str] is a sequence of Unicode code points. *)
Definition char := N.
Definition str := list char.
Definition bytes := list Byte.byte.

(** ASCII literals. *)
Fixpoint u (s : string) : str :=
  match s with
  | EmptyString => []
  | String a s' => N_of_ascii a :: u s'
  end.
Arguments u s%_string : simpl never.

Definition LF : char := 10.
Definition CR : char := 13.
Definition SPACE : char := 32.
Definition EQUALS : char := 61.
Definition DQUOTE : char := 34.
Definition SLASH : char := 47.
Definition BACKSLASH : char := 92.

(** [c.isspace()]: the code points CPython treats as whitespace, which
    are the ones [str.strip()] and [str.split()] remove. *)
Definition isspace (c : char) : bool :=
  ((9 <=? c) && (c <=? 13)) || ((28 <=? c) && (c <=? 32))
  || (c =? 133) || (c =? 160) || (c =? 5760)
  || ((8192 <=? c) && (c <=? 8202))
  || (c =? 8232) || (c =? 8233) || (c =? 8239) || (c =? 8287)
  || (c =? 12288).

(** The line boundaries of [str.splitlines()] other than the pair CR LF. *)
Definition is_linebreak (c : char) : bool :=
  ((10 <=? c) && (c <=? 13)) || ((28 <=? c) && (c <=? 30))
  || (c =? 133) || (c =? 8232) || (c =? 8233).

(** [s.split(c)] for a one-character separator: never empty, and empty
    fields are kept. *)
Fixpoint split_on (c : char) (s : str) : list str :=
  match s with
  | [] => [[]]
  | x :: s' =>
      if x =? c then [] :: split_on c s'
      else match split_on c s' with
           | [] => [[x]]
           | w :: ws => (x :: w) :: ws
           end
  end.

(** [s.split(c, 1)]: at most one cut, at the first separator. *)
Fixpoint split_once (c : char) (s : str) : list str :=
  match s with
  | [] => [[]]
  | x :: s' =>
      if x =? c then [[]; s']
      else match split_once c s' with
           | w :: ws => (x :: w) :: ws
           | [] => [[x]]
           end
  end.

(** [sep.join(parts)]. *)
Fixpoint join (sep : char) (parts : list str) : str :=
  match parts with
  | [] => []
  | [p] => p
  | p :: ps => p ++ sep :: join sep ps
  end.

Fixpoint lstrip (s : str) : str :=
  match s with
  | [] => []
  | c :: s' => if isspace c then lstrip s' else s
  end.

(** [s.strip()]. *)
Definition strip (s : str) : str := rev (lstrip (rev (lstrip s))).

(** [s.split()]: maximal runs of non-whitespace; [cur] is the run being
    read, reversed. *)
Fixpoint split_ws_from (cur : str) (s : str) : list str :=
  match s with
  | [] => match cur with [] => [] | _ => [rev cur] end
  | c :: s' =>
      if isspace c then
        match cur with
        | [] => split_ws_from [] s'
        | _ => rev cur :: split_ws_from [] s'
        end
      else split_ws_from (c :: cur) s'
  end.

Definition split_ws (s : str) : list str := split_ws_from [] s.

(** [s.splitlines()]: CR LF counts as one boundary and a final boundary
    opens no further line. *)
Fixpoint splitlines_from (cur : str) (s : str) : list str :=
  match s with
  | [] => match cur with [] => [] | _ => [rev cur] end
  | c :: s' =>
      if c =? CR then
        match s' with
        | c' :: s'' =>
            if c' =? LF then rev cur :: splitlines_from [] s''
            else rev cur :: splitlines_from [] s'
        | [] => [rev cur]
        end
      else if is_linebreak c then rev cur :: splitlines_from [] s'
      else splitlines_from (c :: cur) s'
  end.

Definition splitlines (s : str) : list str := splitlines_from [] s.

(** [s.lower()] on the ASCII letters.  Beyond ASCII the code point is left
    in place: no such code point lowercases to one of the letters s, e, t,
    so the comparison [cmd.lower() != 'set'] is decided as in Python. *)
Definition lower_char (c : char) : char :=
  if (65 <=? c) && (c <=? 90) then c + 32 else c.
Definition lower (s : str) : str := map lower_char s.

(** [s.replace(c, '')]. *)
Definition remove_char (c : char) (s : str) : str :=
  filter (fun x => x ≠ c) s.

(** [l[:-1]] and [l[1:-1]]. *)
Definition but_last {A} (l : list A) : list A := take (length l - 1)%nat l.
Definition inner {A} (l : list A) : list A := drop 1 (but_last l).

(** [str(n)] for an [int]. *)
Definition str_of_int (n : Z) : str :=
  u (NilEmpty.string_of_int (Z.to_int n)).

(** *** [bytes.decode('utf8')] *)

Definition cont (b : Byte.byte) : option N :=
  let n := Byte.to_N b in
  if (128 <=? n) && (n <=? 191) then Some (n - 128) else None.

(** Strict UTF-8: no overlong forms, no surrogates, nothing above
    U+10FFFF.  [None] stands for [UnicodeDecodeError]. *)
Fixpoint decode_utf8 (bs : bytes) : option str :=
  match bs with
  | [] => Some []
  | b0 :: rest =>
      let n0 := Byte.to_N b0 in
      if n0 <? 128 then cons n0 <$> decode_utf8 rest
      else if (194 <=? n0) && (n0 <=? 223) then
        match rest with
        | b1 :: rest1 =>
            match cont b1 with
            | Some c1 => cons ((n0 - 192) * 64 + c1) <$> decode_utf8 rest1
            | None => None
            end
        | _ => None
        end
      else if (224 <=? n0) && (n0 <=? 239) then
        match rest with
        | b1 :: b2 :: rest2 =>
            match cont b1, cont b2 with
            | Some c1, Some c2 =>
                let cp := (n0 - 224) * 4096 + c1 * 64 + c2 in
                if (2048 <=? cp) && negb ((55296 <=? cp) && (cp <=? 57343))
                then cons cp <$> decode_utf8 rest2
                else None
            | _, _ => None
            end
        | _ => None
        end
      else if (240 <=? n0) && (n0 <=? 244) then
        match rest with
        | b1 :: b2 :: b3 :: rest3 =>
            match cont b1, cont b2, cont b3 with
            | Some c1, Some c2, Some c3 =>
                let cp := (n0 - 240) * 262144 + c1 * 4096 + c2 * 64 + c3 in
                if (65536 <=? cp) && (cp <=? 1114111)
                then cons cp <$> decode_utf8 rest3
                else None
            | _, _, _ => None
            end
        | _ => None
        end
      else None
  end.

(** ** Values, exceptions and the external world *)

(** Python values as far as the module looks into them: keyword arguments
    and the decoded JSON that [inspect_container] returns. *)
Inductive pyval :=
| VNone
| VBool (b : bool)
| VInt (n : Z)
| VStr (s : str)
| VList (l : list pyval)
| VDict (d : list (str * pyval)).

Inductive exn :=
| CalledProcessError (stdout : option bytes)
| TimeoutExpired
| ValueError
| IndexError
| KeyError
| TypeError
| AssertionError
| UnicodeDecodeError
| UnicodeEncodeError
| OSError
| Exception_ (msg : str).

(** One invocation [self.command(name, vm_name, args=..., timeout=...)]. *)
Record Command := {
  c_name : str;
  c_vm : option str;
  c_args : list str;
  c_timeout : option N;   (* seconds *)
}.

(** What the tool did: how long it ran and how it exited.  A non-zero exit
    carries the captured standard output ([exc.stdout], which is also
    [exc.output]). *)
Inductive Completion :=
| Exit0 (output : option str)
| ExitNonZero (stdout : option bytes).

Record Run := { duration : N; completion : Completion }.

(** A method inherited from [Hypervisor] drives the same tool without a
    timeout: it returns, or fails with the tool's non-zero exit. *)
Inductive Returned (A : Type) :=
| Ret (a : A)
| Fails (stdout : option bytes).
Arguments Ret {A} a.
Arguments Fails {A} stdout.

(** Everything observable, newest first: tool invocations, calls of
    inherited methods and of the container client, and the entries into
    [create], [_set_env] and [_recover]. *)
Inductive Event :=
| Cmd (c : Command)
| Ext_remove (name : str)
| Ext_vm_running
| Ext_restore_vm
| Ext_get_config
| Ext_inspect_container (container_id : str)
| Call_create (vm_name : option str) (params : gmap str pyval)
| Call_set_env (retried : bool)
| Call_recover (restarted : bool).

(** The object's constants, the library functions whose tables are not
    reproduced here, and the answers of the outside world, each of which may
    depend on everything that happened before. *)
Record World := {
  _vm_name : str;
  DRIVER_NAME : str;
  CONSTRAINT_KEYS : list (str * str);
  os_path_sep : char;
  isnumeric : char -> bool;            (* str.isnumeric *)
  ip_address : str -> bool;            (* ipaddress.ip_address accepts *)
  int_of_str : str -> option Z;        (* int(s) *)
  (* os.environ[var] = val: the exception it raises, or the key under
     which the value is stored (the name itself, or on Windows the name in
     upper case) *)
  environ_setitem : str -> str -> exn + str;
  tool : list Event -> Command -> Run;
  base_remove : list Event -> str -> Returned bool;
  base_vm_running : list Event -> Returned bool;
  base_restore_vm : list Event -> Returned unit;
  get_config_fn : list Event -> gmap str pyval;
  inspect_container : list Event -> str -> pyval;
}.

Inductive Level := DEBUG | INFO | WARNING | ERROR.

Inductive LogArg :=
| LStr (s : str)
| LExn (e : exn)
| LOut (o : option bytes).

Record LogRecord := { level : Level; msg : str; args : list LogArg }.

Record State := {
  trace : list Event;
  environ : gmap str str;        (* os.environ *)
  _config_dir : option str;      (* self._config_dir *)
  log : list LogRecord;          (* newest first *)
}.

(** ** The monad: state, exceptions, and fuel for the recursion *)

Inductive Result (A : Type) :=
| Val (a : A)
| Exc (e : exn)
| Fuel.
Arguments Val {A} a.
Arguments Exc {A} e.
Arguments Fuel {A}.

Definition M (A : Type) := State -> Result A * State.

Definition ret {A} (a : A) : M A := fun st => (Val a, st).
Definition raise {A} (e : exn) : M A := fun st => (Exc e, st).
Definition out_of_fuel {A} : M A := fun st => (Fuel, st).

Definition bind {A B} (m : M A) (k : A -> M B) : M B :=
  fun st =>
    match m st with
    | (Val a, st') => k a st'
    | (Exc e, st') => (Exc e, st')
    | (Fuel, st') => (Fuel, st')
    end.

Declare Scope py_scope.
Delimit Scope py_scope with py.
Notation "x <- m ;; k" := (bind m (fun x => k))
  (at level 100, m at next level, right associativity) : py_scope.
Notation "' pat <- m ;; k" := (bind m (fun x => match x with pat => k end))
  (at level 100, pat pattern, m at next level, right associativity) : py_scope.
Notation "m ;; k" := (bind m (fun _ => k))
  (at level 100, right associativity) : py_scope.
Local Open Scope py_scope.

(** [try: m] with the outcome handed to the [except]/[else] clauses. *)
Definition try_ {A} (m : M A) : M (exn + A) :=
  fun st =>
    match m st with
    | (Val a, st') => (Val (inr a), st')
    | (Exc e, st') => (Val (inl e), st')
    | (Fuel, st') => (Fuel, st')
    end.

Definition push_event (ev : Event) (st : State) : State :=
  {| trace := ev :: trace st; environ := environ st;
     _config_dir := _config_dir st; log := log st |}.

Definition push_log (r : LogRecord) (st : State) : State :=
  {| trace := trace st; environ := environ st;
     _config_dir := _config_dir st; log := r :: log st |}.

Definition emit (ev : Event) : M unit :=
  fun st => (Val tt, push_event ev st).

Definition logger (lvl : Level) (m : str) (a : list LogArg) : M unit :=
  fun st => (Val tt, push_log {| level := lvl; msg := m; args := a |} st).

(** [os.environ[var] = val], given how the platform's [os.environ] takes
    the assignment: it raises, or it stores the value under a key. *)
Definition set_environ (setitem : str -> str -> exn + str) (var val : str)
    : M unit :=
  match setitem var val with
  | inl e => raise e
  | inr key =>
      fun st => (Val tt, {| trace := trace st;
                            environ := <[key := val]> (environ st);
                            _config_dir := _config_dir st; log := log st |})
  end.

Definition set_config_dir (d : str) : M unit :=
  fun st => (Val tt, {| trace := trace st; environ := environ st;
                        _config_dir := Some d; log := log st |}).

Definition lift {A} (r : exn + A) : M A :=
  match r with inl e => raise e | inr a => ret a end.

(** [x or y] on an optional string. *)
Definition or_else (x : option str) (y : str) : str :=
  match x with
  | Some (c :: s) => c :: s
  | _ => y
  end.

(** [a, b = l]. *)
Definition unpack2 (l : list str) : exn + (str * str) :=
  match l with
  | [a; b] => inr (a, b)
  | _ => inl ValueError
  end.

(** [v[k]] with a string key and [v[i]] with an index. *)
Definition getitem_str (v : pyval) (k : str) : exn + pyval :=
  match v with
  | VDict d =>
      match list_find (fun kv => kv.1 = k) d with
      | Some (_, (_, x)) => inr x
      | None => inl KeyError
      end
  | _ => inl TypeError
  end.

Definition getitem_0 (v : pyval) : exn + pyval :=
  match v with
  | VList (x :: _) => inr x
  | VList [] => inl IndexError
  | VStr (c :: _) => inr (VStr [c])
  | VStr [] => inl IndexError
  | VDict _ => inl KeyError
  | _ => inl TypeError
  end.

(** [int(v)]. *)
Definition py_int (int_of_str : str -> option Z) (v : pyval) : exn + Z :=
  match v with
  | VInt n => inr n
  | VBool b => inr (if b then 1 else 0)%Z
  | VStr s => match int_of_str s with Some n => inr n | None => inl ValueError end
  | _ => inl TypeError
  end.

(** An external call: it is recorded, and the world answers from what
    happened before it. *)
Definition observe {A} (ev : Event) (answer : list Event -> A) : M A :=
  fun st => (Val (answer (trace st)), push_event ev st).

Definition returned {A} (r : Returned A) : M A :=
  match r with
  | Ret a => ret a
  | Fails so => raise (CalledProcessError so)
  end.

Fixpoint for_each {A} (body : A -> M unit) (l : list A) : M unit :=
  match l with
  | [] => ret tt
  | x :: l' => body x ;; for_each body l'
  end.

(** Keyword arguments.  A call [create(name, **params)] fails with
    [TypeError] when a keyword names one of the parameters [self] and
    [vm_name]; passing two mappings as keywords fails with [TypeError] when
    they share a key. *)
Definition names_a_parameter (params : gmap str pyval) : bool :=
  bool_decide (is_Some (params !! u "self") \/ is_Some (params !! u "vm_name")).

Definition share_a_key (m1 m2 : gmap str pyval) : bool :=
  negb (bool_decide (dom m1 ∩ dom m2 = ∅)).

(** ** The class *)

Section DockerMachineHypervisor.

Variable w : World.

Definition DRIVER_PARAM_NAME : str := u "--driver".
Definition REGENERATE_CERTIFICATES_TIMEOUT : N := 120.
Definition RESTART_VM_TIMEOUT : N := 120.

(** [self.command(name, vm, args=args, timeout=timeout)]: the tool is run;
    a run longer than the timeout raises [TimeoutExpired], a non-zero exit
    raises [CalledProcessError], otherwise the output is returned. *)
Definition command (name : str) (vm : option str) (args : list str)
    (timeout : option N) : M (option str) :=
  let c := {| c_name := name; c_vm := vm; c_args := args;
              c_timeout := timeout |} in
  r <- observe (Cmd c) (fun h => tool w h c) ;;
  if match timeout with Some t => t <? duration r | None => false end
  then raise TimeoutExpired
  else match completion r with
       | Exit0 out => ret out
       | ExitNonZero so => raise (CalledProcessError so)
       end.

(** The methods inherited from [Hypervisor]. *)
Definition remove (name : str) : M bool :=
  r <- observe (Ext_remove name) (fun h => base_remove w h name) ;; returned r.
Definition vm_running : M bool :=
  r <- observe Ext_vm_running (base_vm_running w) ;; returned r.
Definition restore_vm : M unit :=
  r <- observe Ext_restore_vm (base_restore_vm w) ;; returned r.
Definition _get_config : M (gmap str pyval) :=
  observe Ext_get_config (get_config_fn w).

Definition _failed_to_create (vm_name : option str) : M unit :=
  let name := or_else vm_name (_vm_name w) in
  logger WARNING (u "%s: Vm (%s) not found and create failed")
         [LStr (DRIVER_NAME w); LStr name].

Definition _parse_create_params (params : gmap str pyval) : list str :=
  [DRIVER_PARAM_NAME; DRIVER_NAME w].

(** [{k: params.pop(v, None) for k, v in CONSTRAINT_KEYS.items()}],
    returning the constraints and what is left of [params]. *)
Definition pop_constraints (params : gmap str pyval)
    : gmap str pyval * gmap str pyval :=
  fold_left
    (fun '(constraints, params) '(k, v) =>
       (<[k := default VNone (params !! v)]> constraints, delete v params))
    (CONSTRAINT_KEYS w) (∅, params).

Definition create (vm_name : option str) (params : gmap str pyval) : M bool :=
  emit (Call_create vm_name params) ;;
  (if names_a_parameter params then raise TypeError else ret tt) ;;
  let vm_name := or_else vm_name (_vm_name w) in
  let '(constraints, params) := pop_constraints params in
  (if share_a_key constraints params then raise TypeError else ret tt) ;;
  let command_args := _parse_create_params (constraints ∪ params) in
  logger INFO (u "%s: creating VM " ++ [DQUOTE] ++ u "%s" ++ [DQUOTE])
         [LStr (DRIVER_NAME w); LStr vm_name] ;;
  r <- try_ (command (u "create") (Some vm_name) command_args None) ;;
  match r with
  | inr _ => ret true
  | inl (CalledProcessError stdout) =>
      out <- match stdout with
             | Some b => match decode_utf8 b with
                         | Some s => ret s
                         | None => raise UnicodeDecodeError
                         end
             | None => ret []
             end ;;
      logger ERROR
        (DRIVER_NAME w ++ u ": error creating VM " ++ [DQUOTE] ++ vm_name
         ++ [DQUOTE; DQUOTE] ++ u " stdout=" ++ [DQUOTE] ++ out ++ [DQUOTE])
        [] ;;
      ret false
  | inl e => raise e
  end.

(** [l.strip().split()[0]]. *)
Definition first_word (l : str) : exn + str :=
  match split_ws (strip l) with
  | x :: _ => inr x
  | [] => inl IndexError
  end.

(** [[first_word(l) for l in lines]]. *)
Fixpoint first_words (lines : list str) : exn + list str :=
  match lines with
  | [] => inr []
  | l :: lines' =>
      match first_word l with
      | inl e => inl e
      | inr x =>
          match first_words lines' with
          | inl e => inl e
          | inr xs => inr (x :: xs)
          end
      end
  end.

Definition vms : M (list str) :=
  r <- try_ (command (u "list") None [] None) ;;
  match r with
  | inl (CalledProcessError so) =>
      logger WARNING (u "Failed to list VMs: %r")
             [LExn (CalledProcessError so)] ;;
      ret []
  | inl e => raise e
  | inr (Some (c :: o)) =>
      let lines := inner (split_on LF (c :: o)) in
      lift (first_words lines)
  | inr _ => ret []
  end.

(** The loop of [get_port_mapping]: the first line that starts with a
    numeric character and that [ipaddress.ip_address] accepts. *)
Fixpoint find_ip (lines : list str) : option str :=
  match lines with
  | [] => None
  | line :: lines' =>
      match line with
      | c :: _ =>
          if isnumeric w c then
            if ip_address w line then Some line else find_ip lines'
          else find_ip lines'
      | [] => find_ip lines'
      end
  end.

Definition get_port_mapping (container_id : str) (port : Z) : M (str * Z) :=
  c_config <- observe (Ext_inspect_container container_id)
                      (fun h => inspect_container w h container_id) ;;
  v1 <- lift (getitem_str c_config (u "NetworkSettings")) ;;
  v2 <- lift (getitem_str v1 (u "Ports")) ;;
  v3 <- lift (getitem_str v2 (str_of_int port ++ u "/tcp")) ;;
  v4 <- lift (getitem_0 v3) ;;
  v5 <- lift (getitem_str v4 (u "HostPort")) ;;
  port <- lift (py_int (int_of_str w) v5) ;;
  raw_ip <- command (u "ip") (Some (_vm_name w)) [] None ;;
  match raw_ip with
  | None => raise AssertionError
  | Some raw_ip =>
      match find_ip (splitlines raw_ip) with
      | Some ip => ret (ip, port)
      | None => raise AssertionError
      end
  end.

Definition config_dir : M (option str) := fun st => (Val (_config_dir st), st).

(** The body of the loop of [_set_env_from_output]. *)
Definition set_env_line (line : str) : M unit :=
  match line with
  | [] => ret tt
  | _ =>
      '(cmd, params) <- lift (unpack2 (split_once SPACE line)) ;;
      if bool_decide (lower cmd ≠ u "set") then ret tt
      else
        '(var, val) <- lift (unpack2 (split_once EQUALS params)) ;;
        set_environ (environ_setitem w) var val ;;
        if bool_decide (var = u "DOCKER_CERT_PATH") then
          let split := split_on (os_path_sep w) (remove_char DQUOTE val) in
          set_config_dir (join (os_path_sep w) (but_last split))
        else ret tt
  end.

Definition _set_env_from_output (output : str) : M unit :=
  for_each set_env_line (split_on LF output).

Definition typical_solution_s : str :=
  u "It seems there is a  problem with your Docker installation.
Ensure that you try the following before reporting an issue:

 1. The virtualization of Intel VT-x/EPT or AMD-V/RVI is enabled in BIOS
    or virtual machine settings.
 2. The windows feature 'Hyper-V' is enabled
 3. docker-machine is in your path `docker-machine --version` in ps or cmd
 4. docker-machine ls has no errors `docker-machine  ls` in ps or cmd".

(** The local [_log_warning(msg, e)] of [_recover]; [msg] is not used. *)
Definition _log_warning (msg : str) (e : exn) : M unit :=
  logger WARNING (u "Failed to regenerate certificates: %s -- %s")
         [LExn e; LOut (match e with CalledProcessError so => so | _ => None end)].

(** The last stage of [_recover]: remove and re-create the VM, swallowing
    a non-zero exit, then do what remains ([final]). *)
Definition recreate_stage (final : M unit) : M unit :=
  r <- try_ (removed <- remove (_vm_name w) ;;
             if removed then create (Some (_vm_name w)) ∅ ;; ret tt
             else ret tt) ;;
  match r with
  | inl (CalledProcessError so) =>
      logger WARNING
        (u "DockerMachine: failed to re-create the VM: %s -- %s")
        [LExn (CalledProcessError so); LOut so]
  | inl e => raise e
  | inr _ => ret tt
  end ;;
  final.

(** The middle stage of [_recover]: unless the VM was restarted already,
    restart it and recover once more ([again]); when the restart fails, or
    is skipped, go on to the last stage ([recreate]). *)
Definition restart_stage (restarted : bool) (again recreate : M unit)
    : M unit :=
  if negb restarted then
    r <- try_ (command (u "restart") (Some (_vm_name w)) []
                       (Some RESTART_VM_TIMEOUT)) ;;
    match r with
    | inl (CalledProcessError so) =>
        _log_warning (u "Failed to restart the VM") (CalledProcessError so) ;;
        recreate
    | inl TimeoutExpired =>
        _log_warning (u "Timeout in restart the VM") TimeoutExpired ;;
        recreate
    | inl e => raise e
    | inr _ => again
    end
  else recreate.

(** [_set_env] and [_recover] call each other; [fuel] bounds the depth of
    the calls. *)
Fixpoint _set_env (fuel : nat) (retried : bool) : M unit :=
  match fuel with
  | O => out_of_fuel
  | S fuel =>
      emit (Call_set_env retried) ;;
      r <- try_ (command (u "env") (Some (_vm_name w))
                         [u "--shell"; u "cmd"] None) ;;
      match r with
      | inl (CalledProcessError so) =>
          logger WARNING (u "Failed to update env for VM: %s")
                 [LExn (CalledProcessError so)] ;;
          logger DEBUG (u "DockerMachine_output: %s") [LOut so] ;;
          if negb retried then _recover fuel false
          else
            logger ERROR typical_solution_s [] ;;
            raise (CalledProcessError so)
      | inl e => raise e
      | inr (Some (c :: o)) =>
          _set_env_from_output (c :: o) ;;
          logger INFO (u "DockerMachine: env updated") []
      | inr _ =>
          logger WARNING (u "DockerMachine: env update failed") []
      end
  end
with _recover (fuel : nat) (restarted : bool) : M unit :=
  match fuel with
  | O => out_of_fuel
  | S fuel =>
      emit (Call_recover restarted) ;;
      r <- try_ (command (u "regenerate_certs") (Some (_vm_name w)) []
                         (Some REGENERATE_CERTIFICATES_TIMEOUT)) ;;
      match r with
      | inl (CalledProcessError so) =>
          _log_warning (u "Failed to regenerate certificates")
                       (CalledProcessError so) ;;
          restart_stage restarted (_recover fuel true)
                        (recreate_stage (_set_env fuel true))
      | inl TimeoutExpired =>
          _log_warning (u "Timeout in regenerate certificates")
                       TimeoutExpired ;;
          restart_stage restarted (_recover fuel true)
                        (recreate_stage (_set_env fuel true))
      | inl e => raise e
      | inr _ => _set_env fuel true
      end
  end.

Definition setup (fuel : nat) : M unit :=
  names <- vms ;;
  (if bool_decide (_vm_name w ∉ names) then
     config <- _get_config ;;
     created <- create (Some (_vm_name w)) config ;;
     if negb created then
       _failed_to_create None ;;
       raise (Exception_ (u "Docker: No vm available and failed to create"))
     else ret tt
   else ret tt) ;;
  running <- vm_running ;;
  (if negb running then restore_vm else ret tt) ;;
  _set_env fuel false.

End DockerMachineHypervisor.

(** ** Specification-side notions and sample instances *)

(** The first whitespace-delimited token of a line, read off directly:
    skip the leading whitespace, then read up to the next whitespace. *)
Fixpoint word (s : str) : str :=
  match s with
  | [] => []
  | c :: s' => if isspace c then [] else c :: word s'
  end.

Definition first_token (l : str) : option str :=
  match word (lstrip l) with
  | [] => None
  | t => Some t
  end.

(** The line holds at least one character that is not whitespace. *)
Definition has_word (l : str) : bool := existsb (fun c => negb (isspace c)) l.

Definition list_command : Command :=
  {| c_name := u "list"; c_vm := None; c_args := []; c_timeout := None |}.

Definition st0 : State :=
  {| trace := []; environ := ∅; _config_dir := None; log := [] |}.

(** Sample library instances: ASCII digits, decimal numerals, and
    dotted-quad IPv4 literals. *)
Definition ascii_digit (c : char) : bool := (48 <=? c) && (c <=? 57).

Fixpoint digits_value (acc : Z) (s : str) : option Z :=
  match s with
  | [] => Some acc
  | c :: s' =>
      if ascii_digit c then digits_value (acc * 10 + Z.of_N (c - 48))%Z s'
      else None
  end.

Definition decimal (s : str) : option Z :=
  match s with
  | [] => None
  | _ => digits_value 0 s
  end.

Definition octet (o : str) : bool :=
  match decimal o with
  | Some n =>
      (n <=? 255)%Z && (length o <=? 3)%nat
      && match o with 48 :: _ :: _ => false | _ => true end
  | None => false
  end.

Definition ipv4_literal (s : str) : bool :=
  match split_on 46 s with
  | [a; b; c; d] => forallb octet [a; b; c; d]
  | _ => false
  end.

(** Sample instances of [os.environ] for text without lone surrogates,
    which it cannot encode.  On a POSIX host a NUL in the name or in the
    value and a [=] in the name are a [ValueError], an empty name is an
    [OSError], and the value is stored under the name.  On Windows an
    empty name, a [=] after the first character of the name and a NUL are
    a [ValueError], and the value is stored under the name in upper case
    (here: of its ASCII letters). *)
Definition posix_environ_setitem (var val : str) : exn + str :=
  if bool_decide (0 ∈ var \/ 0 ∈ val \/ EQUALS ∈ var) then inl ValueError
  else match var with
       | [] => inl OSError
       | _ => inr var
       end.

Definition upper_char (c : char) : char :=
  if (97 <=? c) && (c <=? 122) then c - 32 else c.

Definition windows_environ_setitem (var val : str) : exn + str :=
  if bool_decide (var = [] \/ EQUALS ∈ drop 1 var \/ 0 ∈ var \/ 0 ∈ val)
  then inl ValueError
  else inr (map upper_char var).

(** A sample world on a POSIX host: VM [golem], driver [virtualbox]; the
    VM runs, and nothing is configured unless given. *)
Definition sample_world (tool : list Event -> Command -> Run)
    (rm : Returned bool) (config : gmap str pyval) (inspect : pyval) : World :=
  {| _vm_name := u "golem";
     DRIVER_NAME := u "virtualbox";
     CONSTRAINT_KEYS := [(u "mem", u "memory_size"); (u "cpu", u "cpu_count")];
     os_path_sep := SLASH;
     isnumeric := ascii_digit;
     ip_address := ipv4_literal;
     int_of_str := decimal;
     environ_setitem := posix_environ_setitem;
     tool := tool;
     base_remove := fun _ _ => rm;
     base_vm_running := fun _ => Ret true;
     base_restore_vm := fun _ => Ret tt;
     get_config_fn := fun _ => config;
     inspect_container := fun _ _ => inspect |}.

Definition ok (output : str) : Run :=
  {| duration := 1; completion := Exit0 (Some output) |}.
Definition failed (stdout : option bytes) : Run :=
  {| duration := 1; completion := ExitNonZero stdout |}.

(** A tool that answers by subcommand name alone. *)
Definition by_name (answers : list (str * Run)) (other : Run)
    : list Event -> Command -> Run :=
  fun _ c =>
    match list_find (fun a => a.1 = c_name c) answers with
    | Some (_, (_, r)) => r
    | None => other
    end.

(** A listing with a blank line between the header and the last line. *)
Definition listing_with_blank : str :=
  u "NAME   ACTIVE   DRIVER" ++ [LF] ++ u "golem  -        virtualbox"
  ++ [LF] ++ u " " ++ [LF].

Definition w_blank_listing : World :=
  sample_world (by_name [(u "list", ok listing_with_blank)] (ok [])) (Ret true) ∅ VNone.

Definition listing_two : str :=
  u "NAME   ACTIVE   DRIVER" ++ [LF] ++ u "golem  -        virtualbox"
  ++ [LF] ++ u "  other *  hyperv" ++ [LF].

Definition w_listing_two : World :=
  sample_world (by_name [(u "list", ok listing_two)] (ok [])) (Ret true) ∅ VNone.

(** The environment-export line of the specification's example,
    [set DOCKER_CERT_PATH="/a/b/c"], and its value with the quotes. *)
Definition DOCKER_CERT_PATH : str := u "DOCKER_CERT_PATH".
Definition quoted_abc : str := [DQUOTE] ++ u "/a/b/c" ++ [DQUOTE].
Definition cert_line : str := u "set DOCKER_CERT_PATH=" ++ quoted_abc.

(** The variable that a line of the export assigns, if it assigns one. *)
Definition assigned_var (line : str) : option str :=
  match line with
  | [] => None
  | _ =>
      match unpack2 (split_once SPACE line) with
      | inr (cmd, params) =>
          if bool_decide (lower cmd = u "set") then
            match unpack2 (split_once EQUALS params) with
            | inr (var, _) => Some var
            | inl _ => None
            end
          else None
      | inl _ => None
      end
  end.

Definition w_posix : World := sample_world (by_name [] (ok [])) (Ret true) ∅ VNone.

(** The same host with the path separator of Windows. *)
Definition w_windows : World :=
  {| _vm_name := u "golem";
     DRIVER_NAME := u "hyperv";
     CONSTRAINT_KEYS := [(u "mem", u "memory_size"); (u "cpu", u "cpu_count")];
     os_path_sep := BACKSLASH;
     isnumeric := ascii_digit;
     ip_address := ipv4_literal;
     int_of_str := decimal;
     environ_setitem := windows_environ_setitem;
     tool := by_name [] (ok []);
     base_remove := fun _ _ => Ret true;
     base_vm_running := fun _ => Ret true;
     base_restore_vm := fun _ => Ret tt;
     get_config_fn := fun _ => ∅;
     inspect_container := fun _ _ => VNone |}.

Definition export_three : str :=
  u "SET DOCKER_TLS_VERIFY=1" ++ [LF] ++ cert_line ++ [LF]
  ++ u "REM Run this command to configure your shell" ++ [LF].

(** The inspection result [c_config] binds [port]/tcp to a sequence of
    host bindings, the first of which has the host port [P]. *)
Definition maps_port (w : World) (c_config : pyval) (port P : Z) : Prop :=
  exists network_settings ports bindings binding host_port,
    getitem_str c_config (u "NetworkSettings") = inr network_settings
    /\ getitem_str network_settings (u "Ports") = inr ports
    /\ getitem_str ports (str_of_int port ++ u "/tcp") = inr bindings
    /\ getitem_0 bindings = inr binding
    /\ getitem_str binding (u "HostPort") = inr host_port
    /\ py_int (int_of_str w) host_port = inr P.

(** The line starts with a numeric character and is a valid IP literal. *)
Definition is_ip_line (w : World) (line : str) : bool :=
  match line with
  | c :: _ => isnumeric w c && ip_address w line
  | [] => false
  end.

Definition ip_command (w : World) : Command :=
  {| c_name := u "ip"; c_vm := Some (_vm_name w); c_args := [];
     c_timeout := None |}.

Definition inspect_8080 : pyval :=
  VDict [(u "Id", VStr (u "c0ffee"));
         (u "NetworkSettings",
          VDict [(u "Ports",
                  VDict [(u "8080/tcp",
                          VList [VDict [(u "HostIp", VStr (u "0.0.0.0"));
                                        (u "HostPort", VStr (u "32768"))]])])])].

Definition w_port : World :=
  sample_world
    (by_name [(u "ip", ok (u "Starting..." ++ [LF] ++ u "192.168.99.100" ++ [LF]))]
             (ok []))
    (Ret true) ∅ inspect_8080.

Definition create_command (w : World) (vm_name : str) : Command :=
  {| c_name := u "create"; c_vm := Some vm_name;
     c_args := [DRIVER_PARAM_NAME; DRIVER_NAME w]; c_timeout := None |}.

Definition is_create_call (ev : Event) : bool :=
  match ev with Call_create _ _ => true | _ => false end.

(** The message that [create] logs when the tool exits non-zero. *)
Definition create_error_message (w : World) (vm_name out : str) : str :=
  DRIVER_NAME w ++ u ": error creating VM " ++ [DQUOTE] ++ vm_name
  ++ [DQUOTE; DQUOTE] ++ u " stdout=" ++ [DQUOTE] ++ out ++ [DQUOTE].

(** The keywords can be passed to [create] and on to
    [_parse_create_params]. *)
Definition keywords_ok (w : World) (params : gmap str pyval) : bool :=
  negb (names_a_parameter params)
  && negb (share_a_key (pop_constraints w params).1 (pop_constraints w params).2).

(** [echec] with an acute accent on the first letter, in Latin-1: not
    UTF-8. *)
Definition latin1_echec : bytes :=
  [Byte.xe9; Byte.x63; Byte.x68; Byte.x65; Byte.x63].

(** The VM is not listed and creating it fails, printing Latin-1. *)
Definition w_create_latin1 : World :=
  sample_world
    (by_name [(u "list", ok (u "NAME" ++ [LF] ++ u "other-vm" ++ [LF]));
              (u "create", failed (Some latin1_echec))] (ok []))
    (Ret true) ∅ VNone.

(** The VM is not listed and creating it fails, printing ASCII. *)
Definition w_create_fails : World :=
  sample_world
    (by_name [(u "list", ok (u "NAME" ++ [LF] ++ u "other-vm" ++ [LF]));
              (u "create", failed (Some [Byte.x6e; Byte.x6f]))] (ok []))
    (Ret true) {[ u "memory_size" := VInt 1024 ]} VNone.

(** The VM is not listed and is created; after that the [env],
    [regenerate_certs] and [restart] commands exit non-zero, and the VM is
    removed. *)
Definition w_recreate (config : gmap str pyval) : World :=
  sample_world
    (by_name [(u "list", ok (u "NAME" ++ [LF] ++ u "other-vm" ++ [LF]));
              (u "env", failed None); (u "regenerate_certs", failed None);
              (u "restart", failed None)] (ok []))
    (Ret true) config VNone.

Definition is_get_config (ev : Event) : bool :=
  match ev with Ext_get_config => true | _ => false end.

(** An entry into [create] other than [create(self._vm_name)], the call
    that [_recover] makes. *)
Definition is_other_create (w : World) (ev : Event) : bool :=
  match ev with
  | Call_create vm_name params =>
      negb (bool_decide (vm_name = Some (_vm_name w)
                         /\ dom params = (∅ : gset str)))
  | _ => false
  end.

Definition env_command (w : World) : Command :=
  {| c_name := u "env"; c_vm := Some (_vm_name w);
     c_args := [u "--shell"; u "cmd"]; c_timeout := None |}.

Definition regenerate_certs_command (w : World) : Command :=
  {| c_name := u "regenerate_certs"; c_vm := Some (_vm_name w); c_args := [];
     c_timeout := Some REGENERATE_CERTIFICATES_TIMEOUT |}.

Definition restart_command (w : World) : Command :=
  {| c_name := u "restart"; c_vm := Some (_vm_name w); c_args := [];
     c_timeout := Some RESTART_VM_TIMEOUT |}.

(** Counting the events of a kind. *)
Definition weight (p : Event -> bool) (ev : Event) : nat :=
  if p ev then 1 else 0.

Fixpoint count (p : Event -> bool) (evs : list Event) : nat :=
  match evs with
  | [] => 0
  | ev :: evs' => weight p ev + count p evs'
  end.

Definition is_restart (ev : Event) : bool :=
  match ev with
  | Cmd c => bool_decide (c_name c = u "restart")
  | _ => false
  end.

Definition is_recover_call (ev : Event) : bool :=
  match ev with Call_recover _ => true | _ => false end.

Definition is_first_recover_call (ev : Event) : bool :=
  match ev with Call_recover false => true | _ => false end.

Definition is_retried_set_env (ev : Event) : bool :=
  match ev with Call_set_env true => true | _ => false end.

(** A computation adds at most [n] events of the kind [p] to the trace,
    and does not run out of fuel. *)
Definition bounded {A} (p : Event -> bool) (n : nat) (m : M A) : Prop :=
  forall st, exists evs,
    trace (m st).2 = evs ++ trace st
    /\ (count p evs <= n)%nat
    /\ (m st).1 <> Fuel.

(** The [env] command exits non-zero; everything else succeeds with no
    output. *)
Definition w_env_fails : World :=
  sample_world (by_name [(u "env", failed None)] (ok [])) (Ret true) ∅ VNone.

(** The [env], [regenerate_certs] and [restart] commands exit non-zero;
    the VM is removed; creating it exits non-zero, printing Latin-1. *)
Definition w_recover_latin1 : World :=
  sample_world
    (by_name [(u "env", failed None); (u "regenerate_certs", failed None);
              (u "restart", failed None);
              (u "create", failed (Some latin1_echec))] (ok []))
    (Ret true) ∅ VNone.

(** A computation adds no entry into the retried [_set_env] to the trace
    and returns a value that satisfies [P], unless it raises
    [UnicodeDecodeError]. *)
Definition quiet {A} (P : A -> Prop) (m : M A) : Prop :=
  forall st, exists evs,
    trace (m st).2 = evs ++ trace st
    /\ count is_retried_set_env evs = 0%nat
    /\ ((exists x, (m st).1 = Val x /\ P x)
        \/ (m st).1 = Exc UnicodeDecodeError).

(** A computation either raises [UnicodeDecodeError] before any entry
    into the retried [_set_env], or its newest events are that entry and
    the [env] command, with no such entry before. *)
Definition ends_with_set_env (w : World) (m : M unit) : Prop :=
  forall st,
    (exists evs,
       trace (m st).2 = evs ++ trace st
       /\ count is_retried_set_env evs = 0%nat
       /\ (m st).1 = Exc UnicodeDecodeError)
    \/ (exists evs,
          trace (m st).2
            = Cmd (env_command w) :: Call_set_env true :: evs ++ trace st
          /\ count is_retried_set_env evs = 0%nat).

(** ** Further specification-side notions *)

(** What [_set_env_from_output] makes of one line: it skips it, takes it
    as an assignment, or cannot unpack it. *)
Inductive LineKind :=
| Skipped
| Assigns (var val : str)
| Malformed.

Definition line_kind (line : str) : LineKind :=
  match line with
  | [] => Skipped
  | _ =>
      match unpack2 (split_once SPACE line) with
      | inr (cmd, params) =>
          if bool_decide (lower cmd = u "set") then
            match unpack2 (split_once EQUALS params) with
            | inr (var, val) => Assigns var val
            | inl _ => Malformed
            end
          else Skipped
      | inl _ => Malformed
      end
  end.

(** The exception at which the loop stops on a line, if it does: a line
    it cannot unpack is a [ValueError], an assignment may be refused by
    [os.environ]. *)
Definition line_error (w : World) (line : str) : option exn :=
  match line_kind line with
  | Skipped => None
  | Malformed => Some ValueError
  | Assigns var val =>
      match environ_setitem w var val with
      | inl e => Some e
      | inr _ => None
      end
  end.

(** The assignments of an export that [os.environ] takes, in the order of
    its lines, each with the key it is stored under. *)
Definition assignments (w : World) (lines : list str) : list (str * str) :=
  omap (fun l => match line_kind l with
                 | Assigns var val =>
                     match environ_setitem w var val with
                     | inr key => Some (key, val)
                     | inl _ => None
                     end
                 | _ => None
                 end) lines.

(** The environment after a sequence of assignments, the later ones
    overwriting the earlier. *)
Definition assign_all (env : gmap str str) (kvs : list (str * str))
    : gmap str str :=
  foldl (fun m kv => <[kv.1 := kv.2]> m) env kvs.

Definition export_mixed : str :=
  u "SET DOCKER_HOST=tcp://192.168.99.100:2376" ++ [LF]
  ++ u "REM Run this command to configure your shell" ++ [LF]
  ++ u "set DOCKER_HOST=tcp://10.0.0.1:2376" ++ [LF].

Definition export_remarks : str :=
  u "REM Run this command to configure your shell" ++ [LF]
  ++ u "@FOR /f tokens IN (x) DO @y" ++ [LF].

Definition export_broken : str :=
  u "SET DOCKER_TLS_VERIFY=1" ++ [LF] ++ u "Usage:" ++ [LF]
  ++ u "SET DOCKER_HOST=tcp://10.0.0.1:2376".

(** An assignment without a name, between two assignments. *)
Definition export_nameless : str :=
  u "SET DOCKER_TLS_VERIFY=1" ++ [LF] ++ u "SET =x" ++ [LF]
  ++ u "SET DOCKER_HOST=tcp://10.0.0.1:2376".

Definition export_windows : str :=
  u "SET DOCKER_TLS_VERIFY=1" ++ [LF]
  ++ u "SET DOCKER_CERT_PATH=C:\Users\golem\.docker\machine\machines\golem"
  ++ [LF].

(** The host port that [get_port_mapping] reads out of the inspection
    result, or the exception of the first lookup that fails. *)
Definition lookup_host_port (w : World) (c_config : pyval) (port : Z)
    : exn + Z :=
  match getitem_str c_config (u "NetworkSettings") with
  | inl e => inl e
  | inr v1 =>
      match getitem_str v1 (u "Ports") with
      | inl e => inl e
      | inr v2 =>
          match getitem_str v2 (str_of_int port ++ u "/tcp") with
          | inl e => inl e
          | inr v3 =>
              match getitem_0 v3 with
              | inl e => inl e
              | inr v4 =>
                  match getitem_str v4 (u "HostPort") with
                  | inl e => inl e
                  | inr v5 => py_int (int_of_str w) v5
                  end
              end
          end
      end
  end.

(** The name [create] uses for a given argument. *)
Definition effective_name (w : World) (vm_name : option str) : str :=
  match vm_name with
  | Some (c :: s) => c :: s
  | _ => _vm_name w
  end.

(** Port 8080 is exposed but not published: no host bindings. *)
Definition inspect_unpublished : pyval :=
  VDict [(u "NetworkSettings",
          VDict [(u "Ports", VDict [(u "8080/tcp", VNone)])])].

Definition w_unpublished : World :=
  sample_world (by_name [] (ok (u "192.168.99.100"))) (Ret true) ∅
               inspect_unpublished.

(** The [ip] command exits non-zero (the VM is stopped). *)
Definition w_ip_fails : World :=
  sample_world (by_name [(u "ip", failed None)] (ok [])) (Ret true) ∅
               inspect_8080.

(** A listing that is cut off after the header. *)
Definition w_header_only : World :=
  sample_world (by_name [(u "list", ok (u "NAME   ACTIVE   DRIVER" ++ [LF]))]
                        (ok [])) (Ret true) ∅ VNone.

(** How a run of the tool ends for the caller of [command]. *)
Definition timed_out (timeout : option N) (r : Run) : bool :=
  match timeout with
  | Some t => t <? duration r
  | None => false
  end.

Definition outcome (timeout : option N) (r : Run) : exn + option str :=
  if timed_out timeout r then inl TimeoutExpired
  else match completion r with
       | Exit0 out => inr out
       | ExitNonZero so => inl (CalledProcessError so)
       end.

(** The run failed the way [_recover] provides for: it timed out or
    exited non-zero. *)
Definition run_failed (timeout : option N) (r : Run) : bool :=
  match outcome timeout r with
  | inl _ => true
  | inr _ => false
  end.

Definition is_set_env_call (ev : Event) : bool :=
  match ev with Call_set_env _ => true | _ => false end.

(** ** Context managers and [restart_ctx] *)

(** A context manager: [__enter__], and [__exit__] told the exception of
    the block, if any, and answering whether to suppress it. *)
Record ContextManager (R : Type) := {
  cm_enter : M R;
  cm_exit : option exn -> M bool;
}.
Arguments cm_enter {R} _.
Arguments cm_exit {R} _ _.

(** [with cm as res: body]; [None] when an exception of the block was
    suppressed. *)
Definition with_ {R A} (cm : ContextManager R) (body : R -> M A)
    : M (option A) :=
  res <- cm_enter cm ;;
  r <- try_ (body res) ;;
  match r with
  | inr a => cm_exit cm None ;; ret (Some a)
  | inl e =>
      suppressed <- cm_exit cm (Some e) ;;
      if suppressed then ret None else raise e
  end.

(** [with self.restart_ctx(name) as res: body].  The generator of
    [restart_ctx] yields inside the context of the inherited
    [restart_ctx], so the block runs there; [_set_env] follows once that
    context has been left without an exception. *)
Definition restart_ctx {R A} (w : World) (fuel : nat)
    (super_restart_ctx : option str -> ContextManager R)
    (name : option str) (body : R -> M A) : M (option A) :=
  r <- with_ (super_restart_ctx name) body ;;
  _set_env w fuel false ;;
  ret r.

(** A context manager that stops the VM on entry and starts it on exit,
    suppressing nothing. *)
Definition stop_start (w : World) (name : option str) : ContextManager unit :=
  {| cm_enter := command w (u "stop") name [] None ;; ret tt;
     cm_exit := fun _ => command w (u "start") name [] None ;; ret false |}.

(** The [env] and [regenerate_certs] commands exit non-zero, the restart
    takes too long, and the VM cannot be removed. *)
Definition w_stuck : World :=
  sample_world
    (by_name [(u "env", failed None); (u "regenerate_certs", failed None);
              (u "restart", {| duration := 500; completion := Exit0 None |})]
             (ok []))
    (Ret false) ∅ VNone.

(** The [env] and [regenerate_certs] commands exit non-zero and the
    restart works. *)
Definition w_restartable : World :=
  sample_world
    (by_name [(u "env", failed None); (u "regenerate_certs", failed None)]
             (ok []))
    (Ret true) ∅ VNone.

(** The VM is listed and runs; the export is [export_three]. *)
Definition w_healthy : World :=
  sample_world
    (by_name [(u "list", ok listing_two); (u "env", ok export_three)] (ok []))
    (Ret true) ∅ VNone.

(** The VM is listed and runs; the [env], [regenerate_certs] and
    [restart] commands exit non-zero, and the VM is removed. *)
Definition w_stuck_listed : World :=
  sample_world
    (by_name [(u "list", ok listing_two); (u "env", failed None);
              (u "regenerate_certs", failed None);
              (u "restart", failed None)] (ok []))
    (Ret true) {[ u "memory_size" := VInt 1024 ]} VNone.

(** The VM is listed but stopped, and cannot be started. *)
Definition w_stopped : World :=
  {| _vm_name := u "golem";
     DRIVER_NAME := u "virtualbox";
     CONSTRAINT_KEYS := [(u "mem", u "memory_size"); (u "cpu", u "cpu_count")];
     os_path_sep := SLASH;
     isnumeric := ascii_digit;
     ip_address := ipv4_literal;
     int_of_str := decimal;
     environ_setitem := posix_environ_setitem;
     tool := by_name [(u "list", ok listing_two)] (ok []);
     base_remove := fun _ _ => Ret true;
     base_vm_running := fun _ => Ret false;
     base_restore_vm := fun _ => Fails None;
     get_config_fn := fun _ => ∅;
     inspect_container := fun _ _ => VNone |}.

(** * Properties *)

Example split_on_ex :
  split_on LF (u "NAME" ++ [LF] ++ u "golem  -" ++ [LF]) =
  [u "NAME"; u "golem  -"; []].
Proof. reflexivity. Qed.

Example split_once_ex :
  split_once SPACE (u "set A=b c") = [u "set"; u "A=b c"]
  /\ split_once SPACE (u "REM") = [u "REM"].
Proof. split; reflexivity. Qed.

Example split_ws_ex :
  split_ws (strip (u "  golem   -  virtualbox ")) =
  [u "golem"; u "-"; u "virtualbox"]
  /\ split_ws (strip (u "   ")) = [].
Proof. split; reflexivity. Qed.

Example splitlines_ex :
  splitlines (u "a" ++ [CR; LF] ++ u "b" ++ [LF; LF]) = [u "a"; u "b"; []].
Proof. reflexivity. Qed.

Example decode_utf8_ex :
  decode_utf8 [Byte.x68; Byte.xc3; Byte.xa9] = Some [104; 233]
  /\ decode_utf8 [Byte.xff] = None.
Proof. split; reflexivity. Qed.

Example str_of_int_ex : str_of_int 8080 = u "8080".
Proof. reflexivity. Qed.


(** ** Strings *)

Lemma lstrip_decomp (s : str) :
  exists ws, s = ws ++ lstrip s /\ forallb isspace ws = true.
Proof.
  induction s as [|c s IH]; simpl.
  - exists []. done.
  - destruct (isspace c) eqn:Hc.
    + destruct IH as (ws & Hs & Hws). exists (c :: ws). simpl.
      rewrite Hc, Hws. split; [congruence | done].
    + exists []. done.
Qed.

Lemma word_app_spaces (t ws : str) :
  forallb isspace ws = true -> word (t ++ ws) = word t.
Proof.
  intros Hws. induction t as [|c t IH]; simpl.
  - destruct ws as [|x ws]; [done|]. simpl in *.
    apply andb_true_iff in Hws as [-> _]. done.
  - destruct (isspace c); [done | by rewrite IH].
Qed.

Lemma lstrip_spaces (ws : str) : forallb isspace ws = true -> lstrip ws = [].
Proof.
  induction ws as [|c ws IH]; simpl; [done|].
  intros [-> H]%andb_true_iff. auto.
Qed.

Lemma first_token_app_spaces (t ws : str) :
  forallb isspace ws = true -> first_token (t ++ ws) = first_token t.
Proof.
  intros Hws. unfold first_token. induction t as [|c t IH]; simpl.
  - by rewrite lstrip_spaces.
  - destruct (isspace c) eqn:Hc; [done|].
    simpl. rewrite Hc. by rewrite word_app_spaces.
Qed.

Lemma first_token_lstrip (l : str) : first_token (lstrip l) = first_token l.
Proof.
  unfold first_token. induction l as [|c l IH]; simpl; [done|].
  destruct (isspace c) eqn:Hc; [exact IH|]. simpl. rewrite Hc. simpl.
  by rewrite Hc.
Qed.

Lemma first_token_strip (l : str) : first_token (strip l) = first_token l.
Proof.
  unfold strip.
  destruct (lstrip_decomp (rev (lstrip l))) as (ws & Hrev & Hws).
  assert (Hl : lstrip l = rev (lstrip (rev (lstrip l))) ++ rev ws).
  { rewrite <- rev_app_distr, <- Hrev. by rewrite rev_involutive. }
  rewrite <- (first_token_lstrip l). rewrite Hl at 2.
  rewrite first_token_app_spaces; [done|].
  rewrite forallb_forall in *. intros x Hx. apply Hws. by apply in_rev.
Qed.

Lemma split_ws_from_head (s cur : str) :
  cur <> [] -> head (split_ws_from cur s) = Some (rev cur ++ word s).
Proof.
  revert cur. induction s as [|c s IH]; intros cur Hcur; simpl.
  - destruct cur; [done|]. simpl. by rewrite app_nil_r.
  - destruct (isspace c).
    + destruct cur; [done|]. simpl. by rewrite app_nil_r.
    + rewrite IH; [|done]. simpl. by rewrite <- app_assoc.
Qed.

Lemma split_ws_head (s : str) : head (split_ws s) = first_token s.
Proof.
  unfold split_ws, first_token. induction s as [|c s IH]; simpl; [done|].
  destruct (isspace c) eqn:Hc; [done|].
  rewrite split_ws_from_head; [|done]. simpl. by rewrite Hc.
Qed.

(** The source's [l.strip().split()[0]] is the first token of [l], and it
    fails exactly when there is none. *)
Lemma first_word_first_token (l : str) :
  first_word l =
  match first_token l with Some t => inr t | None => inl IndexError end.
Proof.
  unfold first_word. rewrite <- first_token_strip, <- split_ws_head.
  by destruct (split_ws (strip l)).
Qed.

Lemma has_word_first_token (l : str) :
  has_word l = true -> is_Some (first_token l).
Proof.
  unfold has_word, first_token. induction l as [|c l IH]; simpl; [done|].
  destruct (isspace c) eqn:Hc; simpl; [done|].
  intros _. rewrite Hc. eauto.
Qed.

Lemma first_token_has_word (l : str) :
  is_Some (first_token l) -> has_word l = true.
Proof.
  unfold has_word, first_token. induction l as [|c l IH]; simpl.
  - intros [? ?]. done.
  - destruct (isspace c) eqn:Hc; simpl; [done | done].
Qed.

Lemma first_words_tokens (data : list str) :
  forallb has_word data = true ->
  exists names, first_words data = inr names
    /\ Forall2 (fun l n => first_token l = Some n) data names.
Proof.
  induction data as [|l data IH]; simpl.
  - exists []. by split.
  - intros [Hl Hd]%andb_true_iff.
    destruct (has_word_first_token l Hl) as [t Ht].
    destruct (IH Hd) as (names & -> & HF).
    rewrite first_word_first_token, Ht.
    exists (t :: names). split; [done | by constructor].
Qed.

Lemma inner_middle {A} (x y : A) (l : list A) : inner (x :: l ++ [y]) = l.
Proof.
  unfold inner, but_last. simpl. rewrite length_app. simpl.
  replace (length l + 1 - 0)%nat with (S (length l)) by lia.
  simpl. by rewrite take_app_length.
Qed.

(** ** Running the monad *)

Ltac run :=
  cbv beta iota zeta delta
    [bind try_ observe emit logger ret raise lift returned out_of_fuel
     command remove vm_running restore_vm _get_config fst snd].

(** ** Listing the VMs *)

(** What [vms] does, by the way the [list] command ended. *)
Lemma vms_run (w : World) (st : State) :
  vms w st =
  let st' := push_event (Cmd list_command) st in
  match completion (tool w (trace st) list_command) with
  | ExitNonZero so =>
      (Val ([] : list str),
       push_log {| level := WARNING; msg := u "Failed to list VMs: %r";
                   args := [LExn (CalledProcessError so)] |} st')
  | Exit0 (Some (c :: o)) =>
      (match first_words (inner (split_on LF (c :: o))) with
       | inl e => Exc e
       | inr names => Val names
       end, st')
  | Exit0 _ => (Val [], st')
  end.
Proof.
  unfold vms, list_command. run.
  destruct (completion _) as [[[|c o]|]|so]; try reflexivity.
  destruct (first_words _); reflexivity.
Qed.

(** C9, as amended: when the [list] command succeeds and its output splits
    at the newlines into a first line, N further lines and a last line, and
    each of the N lines holds a character that is not whitespace, [vms]
    returns exactly N names, the i-th being the first whitespace-delimited
    token of the i-th of those lines. *)
Theorem vms_names_are_first_tokens (w : World) (st : State)
    (output header last : str) (data : list str) :
  completion (tool w (trace st) list_command) = Exit0 (Some output) ->
  split_on LF output = header :: data ++ [last] ->
  forallb has_word data = true ->
  exists names,
    (vms w st).1 = Val names
    /\ length names = length data
    /\ Forall2 (fun l n => first_token l = Some n) data names.
Proof.
  intros Hrun Hsplit Hdata.
  destruct (first_words_tokens data Hdata) as (names & Hnames & HF).
  exists names. rewrite vms_run, Hrun.
  destruct output as [|c o].
  - simpl in Hsplit. destruct data; discriminate.
  - cbv beta iota zeta. rewrite Hsplit, inner_middle, Hnames.
    split; [done|]. split; [|done]. symmetry. by eapply Forall2_length.
Qed.

Lemma vms_names_are_first_tokens_witness :
  exists names,
    (vms w_listing_two st0).1 = Val names
    /\ length names = 2%nat
    /\ Forall2 (fun l n => first_token l = Some n)
         [u "golem  -        virtualbox"; u "  other *  hyperv"] names.
Proof.
  apply (vms_names_are_first_tokens w_listing_two st0 listing_two
           (u "NAME   ACTIVE   DRIVER") []
           [u "golem  -        virtualbox"; u "  other *  hyperv"]);
    reflexivity.
Defined.

Example vms_listing_two :
  (vms w_listing_two st0).1 = Val [u "golem"; u "other"].
Proof. reflexivity. Qed.

(** C9 as stated fails: a listing with two lines between its header and
    its blank last line, the second of them blank, yields no names at all
    ([IndexError]). *)
Lemma vms_blank_data_line_no_names :
  completion (tool w_blank_listing (trace st0) list_command)
    = Exit0 (Some listing_with_blank)
  /\ split_on LF listing_with_blank =
       u "NAME   ACTIVE   DRIVER"
       :: [u "golem  -        virtualbox"; u " "] ++ [[]]
  /\ (vms w_blank_listing st0).1 = Exc IndexError
  /\ ~ (exists names, (vms w_blank_listing st0).1 = Val names
                      /\ length names = 2%nat).
Proof.
  split; [reflexivity|]. split; [reflexivity|]. split; [reflexivity|].
  intros (names & H & _). vm_compute in H. discriminate.
Qed.

(** C8, as amended: [vms] returns a sequence and does not raise when the
    [list] command exits non-zero (the sequence is then empty), when it
    gives no output or empty output (empty again), and when each line of
    the output between the first and the last holds a character that is not
    whitespace. *)
Theorem vms_returns_a_sequence (w : World) (st : State) :
  (forall out,
     completion (tool w (trace st) list_command) = Exit0 (Some out) ->
     forallb has_word (inner (split_on LF out)) = true) ->
  exists names,
    (vms w st).1 = Val names
    /\ (forall so,
          completion (tool w (trace st) list_command) = ExitNonZero so ->
          names = [])
    /\ (completion (tool w (trace st) list_command) = Exit0 None ->
        names = [])
    /\ (completion (tool w (trace st) list_command) = Exit0 (Some []) ->
        names = []).
Proof.
  intros Hwf. rewrite vms_run. cbv zeta.
  destruct (completion (tool w (trace st) list_command))
    as [[[|c o]|]|so] eqn:Hrun; cbv beta iota.
  - exists []. repeat split; done.
  - destruct (first_words_tokens _ (Hwf _ eq_refl)) as (names & -> & _).
    exists names. repeat split; done.
  - exists []. repeat split; done.
  - exists []. repeat split; done.
Qed.

Lemma vms_returns_a_sequence_witness :
  exists names,
    (vms w_listing_two st0).1 = Val names
    /\ (forall so,
          completion (tool w_listing_two (trace st0) list_command)
            = ExitNonZero so -> names = [])
    /\ (completion (tool w_listing_two (trace st0) list_command)
          = Exit0 None -> names = [])
    /\ (completion (tool w_listing_two (trace st0) list_command)
          = Exit0 (Some []) -> names = []).
Proof.
  apply (vms_returns_a_sequence w_listing_two st0).
  intros out H. vm_compute in H. injection H as <-. reflexivity.
Defined.

(** C8 as stated fails: on an output with a blank line between the header
    and the last line, [vms] raises [IndexError]. *)
Lemma vms_blank_line_raises :
  completion (tool w_blank_listing (trace st0) list_command)
    = Exit0 (Some listing_with_blank)
  /\ (vms w_blank_listing st0).1 = Exc IndexError
  /\ ~ (forall (w : World) (st : State),
          exists names, (vms w st).1 = Val names).
Proof.
  split; [reflexivity|]. split; [reflexivity|].
  intros H. destruct (H w_blank_listing st0) as [names Hn].
  vm_compute in Hn. discriminate.
Qed.

(** ** Parsing the environment export *)

Lemma for_each_app {A} (body : A -> M unit) (l1 l2 : list A) (st : State) :
  for_each body (l1 ++ l2) st =
  match for_each body l1 st with
  | (Val _, st1) => for_each body l2 st1
  | other => other
  end.
Proof.
  revert st. induction l1 as [|x l1 IH]; intros st; simpl; [done|].
  unfold bind. destruct (body x st) as [[[]| |] st1]; auto.
Qed.

(** A line that does not assign [DOCKER_CERT_PATH] leaves the certificate
    directory as it was. *)
Lemma set_env_line_other (w : World) (line : str) (st st' : State) r :
  assigned_var line <> Some DOCKER_CERT_PATH ->
  set_env_line w line st = (r, st') ->
  _config_dir st' = _config_dir st.
Proof.
  unfold assigned_var, set_env_line. intros Hvar Hrun.
  destruct line as [|c line]; [by inversion Hrun|].
  revert Hrun. run.
  destruct (unpack2 (split_once SPACE (c :: line))) as [e|[cmd params]].
  { by intros [= _ <-]. }
  destruct (decide (lower cmd = u "set")) as [Hset|Hset].
  2: { rewrite bool_decide_eq_true_2 by done. by intros [= _ <-]. }
  rewrite bool_decide_eq_true_2 in Hvar by done.
  rewrite bool_decide_eq_false_2 by (intros H; by apply H).
  destruct (unpack2 (split_once EQUALS params)) as [e|[var val]].
  { by intros [= _ <-]. }
  unfold set_environ, set_config_dir.
  destruct (environ_setitem w var val) as [e|key].
  { by intros [= _ <-]. }
  rewrite bool_decide_eq_false_2 by (intros ->; by apply Hvar).
  by intros [= _ <-].
Qed.

Lemma for_each_other (w : World) (lines : list str) (st st' : State) r :
  Forall (fun l => assigned_var l <> Some DOCKER_CERT_PATH) lines ->
  for_each (set_env_line w) lines st = (r, st') ->
  _config_dir st' = _config_dir st.
Proof.
  intros HF. revert st. induction HF as [|l lines Hl _ IH]; intros st; simpl.
  - by intros [= _ <-].
  - unfold bind. destruct (set_env_line w l st) as [r1 st1] eqn:H1.
    pose proof (set_env_line_other w l st st1 r1 Hl H1) as Hc.
    destruct r1 as [[]|e|].
    + intros H2. rewrite (IH _ H2). exact Hc.
    + by intros [= _ <-].
    + by intros [= _ <-].
Qed.

(** The export never touches the trace. *)
Lemma set_env_line_trace (w : World) (line : str) (st : State) :
  trace (set_env_line w line st).2 = trace st.
Proof.
  unfold set_env_line. destruct line as [|c line]; [done|]. run.
  destruct (unpack2 (split_once SPACE (c :: line))) as [e|[cmd params]];
    [done|].
  destruct (bool_decide (lower cmd <> u "set")); [done|].
  destruct (unpack2 (split_once EQUALS params)) as [e|[var val]]; [done|].
  unfold set_environ, set_config_dir.
  destruct (environ_setitem w var val) as [e|key]; [done|].
  destruct (bool_decide (var = u "DOCKER_CERT_PATH")); done.
Qed.

Lemma set_env_from_output_trace (w : World) (output : str) (st : State) :
  trace (_set_env_from_output w output st).2 = trace st.
Proof.
  unfold _set_env_from_output. generalize (split_on LF output) as lines.
  intros lines. revert st. induction lines as [|l lines IH]; intros st; simpl.
  - done.
  - unfold bind. pose proof (set_env_line_trace w l st) as Hl.
    destruct (set_env_line w l st) as [[[]|e|] st1]; simpl in *;
      [rewrite IH|..]; done.
Qed.

(** The export never yields [Fuel]. *)
Lemma set_env_from_output_fuel (w : World) (output : str) (st : State) :
  (_set_env_from_output w output st).1 <> Fuel.
Proof.
  unfold _set_env_from_output. generalize (split_on LF output) as lines.
  intros lines. revert st. induction lines as [|l lines IH]; intros st; simpl.
  - done.
  - unfold bind. destruct (set_env_line w l st) as [[[]|e|] st1] eqn:Hl;
      simpl; [apply IH | done |].
    exfalso. revert Hl. unfold set_env_line.
    destruct l as [|c l]; [done|]. run.
    destruct (unpack2 (split_once SPACE (c :: l))) as [e|[cmd params]];
      [done|].
    destruct (bool_decide (lower cmd <> u "set")); [done|].
    destruct (unpack2 (split_once EQUALS params)) as [e|[var val]]; [done|].
    unfold set_environ, set_config_dir.
    destruct (environ_setitem w var val) as [e|key]; [done|].
    destruct (bool_decide (var = u "DOCKER_CERT_PATH")); done.
Qed.

(** What else decides the outcome for an export that holds the line: a
    later line may assign the variable again, a line without a space stops
    the processing with [ValueError], and with the separator of Windows a
    path written with [/] has a single segment. *)
Example set_env_from_output_reassigned :
  _config_dir (_set_env_from_output w_posix
                 (cert_line ++ [LF] ++ u "set DOCKER_CERT_PATH=/x/y") st0).2
  = Some (u "/x").
Proof. by vm_compute. Qed.

Example set_env_from_output_malformed_line :
  (_set_env_from_output w_posix (u "REM" ++ [LF] ++ cert_line) st0).1
    = Exc ValueError
  /\ _config_dir
       (_set_env_from_output w_posix (u "REM" ++ [LF] ++ cert_line) st0).2
     = None.
Proof. split; by vm_compute. Qed.

Example set_env_from_output_windows :
  _config_dir (_set_env_from_output w_windows cert_line st0).2 = Some [].
Proof. by vm_compute. Qed.

(** C2: the claim holds of the code for the certificate directory only.
    For the export [set DOCKER_CERT_PATH="/a/b/c"] the directory is derived
    from the value without its quotes ([/a/b]), while the entry of the
    process environment is the value with its quotes: the code strips them
    after, not before, it stores the value. *)
Lemma set_env_from_output_keeps_quotes :
  (_set_env_from_output w_posix cert_line st0).1 = Val tt
  /\ _config_dir (_set_env_from_output w_posix cert_line st0).2
     = Some (u "/a/b")
  /\ environ (_set_env_from_output w_posix cert_line st0).2
       !! u "DOCKER_CERT_PATH" = Some ([DQUOTE] ++ u "/a/b/c" ++ [DQUOTE])
  /\ environ (_set_env_from_output w_posix cert_line st0).2
       !! u "DOCKER_CERT_PATH" <> Some (u "/a/b/c").
Proof. repeat split; by vm_compute. Qed.

(** ** The port mapping *)

(** The loop of the source finds the first line that is an IP line. *)
Lemma find_ip_first (w : World) (lines : list str) :
  find_ip w lines = List.find (is_ip_line w) lines.
Proof.
  induction lines as [|line lines IH]; simpl; [done|].
  destruct line as [|c line]; simpl; [done|].
  destruct (isnumeric w c); simpl; [|done].
  destruct (ip_address w (c :: line)); done.
Qed.

(** C10: when the inspection binds [port]/tcp to host port [P] and the
    [ip] command succeeds, [get_port_mapping] returns [(L, P)] for the
    first output line [L] that starts with a numeric character and is a
    valid IP literal, and fails with [AssertionError] when there is no
    such line (or no output at all). *)
Theorem get_port_mapping_first_ip_line (w : World) (st : State)
    (container_id : str) (port P : Z) (out : option str) :
  maps_port w (inspect_container w (trace st) container_id) port P ->
  completion (tool w (Ext_inspect_container container_id :: trace st)
                (ip_command w)) = Exit0 out ->
  (get_port_mapping w container_id port st).1 =
  match out with
  | Some raw_ip =>
      match List.find (is_ip_line w) (splitlines raw_ip) with
      | Some L => Val (L, P)
      | None => Exc AssertionError
      end
  | None => Exc AssertionError
  end.
Proof.
  intros (v1 & v2 & v3 & v4 & v5 & H1 & H2 & H3 & H4 & H5 & H6) Hrun.
  unfold get_port_mapping. run.
  rewrite H1, H2, H3, H4, H5, H6.
  unfold ip_command in Hrun. unfold push_event. cbn [trace].
  rewrite Hrun. destruct out as [raw_ip|]; [|done].
  rewrite find_ip_first. by destruct (List.find _ _).
Qed.

Lemma get_port_mapping_first_ip_line_witness :
  (get_port_mapping w_port (u "c0ffee") 8080 st0).1 =
  match List.find (is_ip_line w_port)
          (splitlines (u "Starting..." ++ [LF] ++ u "192.168.99.100" ++ [LF]))
  with
  | Some L => Val (L, 32768%Z)
  | None => Exc AssertionError
  end.
Proof.
  apply (get_port_mapping_first_ip_line w_port st0 (u "c0ffee") 8080 32768
           (Some (u "Starting..." ++ [LF] ++ u "192.168.99.100" ++ [LF]))).
  - exists (VDict [(u "Ports",
                    VDict [(u "8080/tcp",
                            VList [VDict [(u "HostIp", VStr (u "0.0.0.0"));
                                          (u "HostPort", VStr (u "32768"))]])])]),
           (VDict [(u "8080/tcp",
                    VList [VDict [(u "HostIp", VStr (u "0.0.0.0"));
                                  (u "HostPort", VStr (u "32768"))]])]),
           (VList [VDict [(u "HostIp", VStr (u "0.0.0.0"));
                          (u "HostPort", VStr (u "32768"))]]),
           (VDict [(u "HostIp", VStr (u "0.0.0.0"));
                   (u "HostPort", VStr (u "32768"))]),
           (VStr (u "32768")).
    repeat split; reflexivity.
  - reflexivity.
Defined.

Example get_port_mapping_8080 :
  (get_port_mapping w_port (u "c0ffee") 8080 st0).1
  = Val (u "192.168.99.100", 32768%Z).
Proof. reflexivity. Qed.

(** ** Creating the VM *)

(** What [create] does once its keywords are accepted. *)
Lemma create_run (w : World) (vm_name : option str)
    (params : gmap str pyval) (st : State) :
  keywords_ok w params = true ->
  create w vm_name params st =
  let name := or_else vm_name (_vm_name w) in
  let st1 :=
    push_log {| level := INFO;
                msg := u "%s: creating VM " ++ [DQUOTE] ++ u "%s" ++ [DQUOTE];
                args := [LStr (DRIVER_NAME w); LStr name] |}
      (push_event (Call_create vm_name params) st) in
  let st2 := push_event (Cmd (create_command w name)) st1 in
  match completion (tool w (trace st1) (create_command w name)) with
  | Exit0 _ => (Val true, st2)
  | ExitNonZero None =>
      (Val false,
       push_log {| level := ERROR; msg := create_error_message w name [];
                   args := [] |} st2)
  | ExitNonZero (Some b) =>
      match decode_utf8 b with
      | Some out =>
          (Val false,
           push_log {| level := ERROR;
                       msg := create_error_message w name out;
                       args := [] |} st2)
      | None => (Exc UnicodeDecodeError, st2)
      end
  end.
Proof.
  unfold keywords_ok. intros [Hres Hdup]%andb_true_iff.
  apply negb_true_iff in Hres, Hdup. unfold create. run. rewrite Hres.
  destruct (pop_constraints w params) as [constraints rest] eqn:Hpop.
  simpl in Hdup. rewrite Hdup.
  unfold _parse_create_params, create_command, create_error_message.
  cbn [trace push_log push_event].
  destruct (completion _) as [out|[b|]]; try reflexivity.
  destruct (decode_utf8 b); reflexivity.
Qed.

(** [create] records its call and, at most, the one [create] command. *)
Lemma create_trace (w : World) (vm_name : option str)
    (params : gmap str pyval) (st : State) :
  exists evs,
    trace (create w vm_name params st).2
      = evs ++ Call_create vm_name params :: trace st
    /\ (evs = [] \/ evs = [Cmd (create_command w (or_else vm_name (_vm_name w)))])
    /\ (create w vm_name params st).1 <> Fuel.
Proof.
  destruct (keywords_ok w params) eqn:Hok.
  - rewrite create_run by done. cbv zeta.
    exists [Cmd (create_command w (or_else vm_name (_vm_name w)))].
    destruct (completion _) as [out|[b|]]; [| destruct (decode_utf8 b) |];
      simpl; auto.
  - exists []. revert Hok. unfold keywords_ok, create. run.
    destruct (names_a_parameter params); [simpl; auto|].
    destruct (pop_constraints w params) as [constraints rest].
    cbn [negb andb fst snd].
    destruct (share_a_key constraints rest); [simpl; auto | done].
Qed.

(** With acceptable keywords and a captured output that is absent or
    UTF-8, [create] returns a boolean: [True] on success; on a non-zero
    exit [False], after logging the driver name and the decoded output. *)
Lemma create_returns_bool (w : World) (vm_name : option str)
    (params : gmap str pyval) (st : State) :
  keywords_ok w params = true ->
  (forall b,
     completion (tool w (trace (push_event (Call_create vm_name params) st))
                   (create_command w (or_else vm_name (_vm_name w))))
       = ExitNonZero (Some b) -> is_Some (decode_utf8 b)) ->
  match completion (tool w (trace (push_event (Call_create vm_name params) st))
                      (create_command w (or_else vm_name (_vm_name w)))) with
  | Exit0 _ => (create w vm_name params st).1 = Val true
  | ExitNonZero stdout =>
      (create w vm_name params st).1 = Val false
      /\ exists out,
           match stdout with
           | Some b => decode_utf8 b = Some out
           | None => out = []
           end
           /\ head (log (create w vm_name params st).2)
              = Some {| level := ERROR;
                        msg := create_error_message w
                                 (or_else vm_name (_vm_name w)) out;
                        args := [] |}
  end.
Proof.
  intros Hok Hdec. rewrite create_run by done. cbv zeta. cbn [trace push_log] in *.
  destruct (completion _) as [out|[b|]]; [done| |].
  - destruct (Hdec b eq_refl) as [out Hout]. rewrite Hout.
    split; [done|]. by exists out.
  - split; [done|]. by exists [].
Qed.

(** C7: the claim holds of the code only while the captured output is
    UTF-8.  When the tool exits non-zero having printed Latin-1, [create]
    raises [UnicodeDecodeError] instead of returning [False]. *)
Theorem create_raises_on_undecodable_stdout :
  completion (tool w_create_latin1
                (trace (push_event (Call_create None ∅) st0))
                (create_command w_create_latin1 (u "golem")))
    = ExitNonZero (Some latin1_echec)
  /\ decode_utf8 latin1_echec = None
  /\ (create w_create_latin1 None ∅ st0).1 = Exc UnicodeDecodeError.
Proof. repeat split; by vm_compute. Qed.

Example create_fails_ascii :
  (create w_create_fails None ∅ st0).1 = Val false
  /\ msg <$> head (log (create w_create_fails None ∅ st0).2)
     = Some (u "virtualbox: error creating VM " ++ [DQUOTE] ++ u "golem"
             ++ [DQUOTE; DQUOTE] ++ u " stdout=" ++ [DQUOTE] ++ u "no"
             ++ [DQUOTE]).
Proof. split; by vm_compute. Qed.

(** A keyword that is itself a constraint name is passed twice. *)
Example create_duplicate_keyword :
  (create w_posix None {[ u "mem" := VInt 1024 ]} st0).1 = Exc TypeError.
Proof. by vm_compute. Qed.

(** ** Counting events along a computation *)

Lemma count_app (p : Event -> bool) (l1 l2 : list Event) :
  count p (l1 ++ l2) = (count p l1 + count p l2)%nat.
Proof. induction l1 as [|ev l1 IH]; simpl; [done|]. rewrite IH. lia. Qed.

Section Bounded.

Context (p : Event -> bool).

Lemma bounded_weaken {A} (n n' : nat) (m : M A) :
  bounded p n m -> (n <= n')%nat -> bounded p n' m.
Proof.
  intros H Hle st. destruct (H st) as (evs & Ht & Hc & Hf).
  exists evs. repeat split; [done | lia | done].
Qed.

Lemma bounded_ret {A} (n : nat) (a : A) : bounded p n (ret a).
Proof. intros st. exists []. simpl. repeat split; [lia | done]. Qed.

Lemma bounded_raise {A} (n : nat) (e : exn) : bounded p n (@raise A e).
Proof. intros st. exists []. simpl. repeat split; [lia | done]. Qed.

Lemma bounded_lift {A} (n : nat) (r : exn + A) : bounded p n (lift r).
Proof. destruct r; [apply bounded_raise | apply bounded_ret]. Qed.

Lemma bounded_returned {A} (n : nat) (r : Returned A) :
  bounded p n (returned r).
Proof. destruct r; [apply bounded_ret | apply bounded_raise]. Qed.

Lemma bounded_logger (n : nat) lvl m a : bounded p n (logger lvl m a).
Proof. intros st. exists []. simpl. repeat split; [lia | done]. Qed.

Lemma bounded_emit (ev : Event) : bounded p (weight p ev) (emit ev).
Proof.
  intros st. exists [ev]. simpl. repeat split; [lia | done].
Qed.

Lemma bounded_observe {A} (ev : Event) (answer : list Event -> A) :
  bounded p (weight p ev) (observe ev answer).
Proof.
  intros st. exists [ev]. simpl. repeat split; [lia | done].
Qed.

Lemma bounded_bind {A B} (a n : nat) (m : M A) (k : A -> M B) :
  bounded p a m -> (a <= n)%nat ->
  (forall x, bounded p (n - a) (k x)) ->
  bounded p n (bind m k).
Proof.
  intros Hm Hle Hk st. unfold bind.
  destruct (Hm st) as (evs & Ht & Hc & Hf).
  destruct (m st) as [[x|e|] st1]; simpl in *; [| |done].
  - destruct (Hk x st1) as (evs' & Ht' & Hc' & Hf').
    exists (evs' ++ evs). rewrite Ht', Ht, count_app, app_assoc.
    repeat split; [lia | done].
  - exists evs. repeat split; [done | lia | done].
Qed.

Lemma bounded_try {A} (n : nat) (m : M A) :
  bounded p n m -> bounded p n (try_ m).
Proof.
  intros Hm st. unfold try_. destruct (Hm st) as (evs & Ht & Hc & Hf).
  destruct (m st) as [[x|e|] st1]; simpl in *; [| |done];
    exists evs; done.
Qed.

Lemma bounded_command (w : World) name vm args timeout :
  bounded p
    (weight p (Cmd {| c_name := name; c_vm := vm; c_args := args;
                      c_timeout := timeout |}))
    (command w name vm args timeout).
Proof.
  unfold command. eapply bounded_bind; [apply bounded_observe | lia |].
  intros r. destruct (match timeout with Some _ => _ | None => _ end);
    [apply bounded_raise|].
  destruct (completion r); [apply bounded_ret | apply bounded_raise].
Qed.

Lemma bounded_for_each {A} (body : A -> M unit) (l : list A) :
  (forall x, bounded p 0 (body x)) -> bounded p 0 (for_each body l).
Proof.
  intros Hb. induction l as [|x l IH]; simpl; [apply bounded_ret|].
  eapply bounded_bind; [apply Hb | lia | intros _; exact IH].
Qed.

Lemma bounded_set_env_from_output (w : World) (output : str) :
  bounded p 0 (_set_env_from_output w output).
Proof.
  intros st. exists []. rewrite set_env_from_output_trace.
  repeat split; [simpl; lia | apply set_env_from_output_fuel].
Qed.

Lemma bounded_create (w : World) (vm_name : option str)
    (params : gmap str pyval) :
  p (Call_create vm_name params) = false ->
  p (Cmd (create_command w (or_else vm_name (_vm_name w)))) = false ->
  bounded p 0 (create w vm_name params).
Proof.
  intros Hcall Hcmd st.
  destruct (create_trace w vm_name params st) as (evs & Ht & Hevs & Hf).
  exists (evs ++ [Call_create vm_name params]).
  rewrite <- app_assoc. split; [done|]. split; [|done].
  rewrite count_app. simpl. unfold weight. rewrite Hcall.
  destruct Hevs as [-> | ->]; simpl; [lia|]. unfold weight. rewrite Hcmd. lia.
Qed.

End Bounded.

(** ** The recovery cascade *)

Section Cascade.

Context (w : World) (p : Event -> bool).

(** [p] is a kind of event that only a [restart] command, an entry into
    [_set_env] or an entry into [_recover] can belong to. *)
Hypothesis p_cmd : forall c, c_name c <> u "restart" -> p (Cmd c) = false.
Hypothesis p_remove : forall name, p (Ext_remove name) = false.
Hypothesis p_create :
  forall vm_name params, p (Call_create vm_name params) = false.

Lemma command_neutral name vm args timeout :
  name <> u "restart" -> bounded p 0 (command w name vm args timeout).
Proof using p_cmd.
  intros Hname. eapply bounded_weaken; [apply bounded_command|].
  unfold weight. rewrite p_cmd by done. lia.
Qed.

Lemma remove_neutral name : bounded p 0 (remove w name).
Proof using p_remove.
  unfold remove. eapply bounded_bind; [apply bounded_observe | | ].
  - unfold weight. rewrite p_remove. lia.
  - intros r. apply bounded_returned.
Qed.

Lemma create_neutral vm_name params : bounded p 0 (create w vm_name params).
Proof using p_cmd p_create.
  apply bounded_create; [apply p_create | by apply p_cmd].
Qed.

Ltac neutral :=
  repeat first
    [ apply bounded_ret
    | apply bounded_raise
    | apply bounded_logger
    | eapply bounded_weaken; [apply bounded_set_env_from_output | lia]
    | eapply bounded_bind; [apply (bounded_logger _ 0) | lia | intros ?]
    | eapply bounded_bind;
        [apply bounded_set_env_from_output | lia | intros ?] ].

(** A retried [_set_env] enters once and goes no further. *)
Lemma set_env_retried_bounded (fuel : nat) :
  bounded p (weight p (Call_set_env true)) (_set_env w (S fuel) true).
Proof using p_cmd.
  simpl. eapply bounded_bind; [apply bounded_emit | done | intros _].
  eapply bounded_bind;
    [apply bounded_try, command_neutral; done | lia | intros r].
  destruct r as [[]|[[|c o]|]]; neutral.
Qed.

(** The last stage adds nothing of the kind [p] to what follows it. *)
Lemma recreate_stage_bounded (n : nat) (final : M unit) :
  bounded p n final -> bounded p n (recreate_stage w final).
Proof using p_cmd p_remove p_create.
  intros Hfinal. unfold recreate_stage.
  eapply bounded_bind with (a := 0%nat); [|lia|].
  - apply bounded_try.
    eapply bounded_bind; [apply remove_neutral | lia | intros removed].
    destruct removed; [|apply bounded_ret].
    eapply bounded_bind; [apply create_neutral | lia | intros _].
    apply bounded_ret.
  - intros r. eapply bounded_bind with (a := 0%nat); [|lia|].
    + destruct r as [[]|]; neutral.
    + intros _. eapply bounded_weaken; [exact Hfinal | lia].
Qed.

(** The middle stage: when restarted already, as the last stage;
    otherwise one restart command, and then the renewed recovery or the
    last stage. *)
Lemma restart_stage_bounded (restarted : bool) (n n' : nat)
    (again recreate : M unit) :
  (restarted = false -> bounded p n' again) ->
  bounded p n recreate ->
  bounded p
    (if restarted then n
     else weight p (Cmd (restart_command w)) + Nat.max n n')
    (restart_stage w restarted again recreate).
Proof using Type.
  intros Hagain Hrecreate. unfold restart_stage.
  destruct restarted; simpl negb; cbv iota; [exact Hrecreate|].
  specialize (Hagain eq_refl).
  eapply bounded_bind; [apply bounded_try, bounded_command | | intros r].
  - unfold restart_command. lia.
  - unfold restart_command.
    destruct r as [[]|]; try apply bounded_raise.
    + eapply bounded_bind; [apply (bounded_logger _ 0) | lia | intros _].
      eapply bounded_weaken; [exact Hrecreate | lia].
    + eapply bounded_bind; [apply (bounded_logger _ 0) | lia | intros _].
      eapply bounded_weaken; [exact Hrecreate | lia].
    + eapply bounded_weaken; [exact Hagain | lia].
Qed.

(** One level of [_recover], given bounds for the calls it makes. *)
Lemma recover_bounded (fuel : nat) (restarted : bool) (n n' : nat) :
  bounded p n (_set_env w fuel true) ->
  (restarted = false -> bounded p n' (_recover w fuel true)) ->
  bounded p
    (weight p (Call_recover restarted)
     + (if restarted then n
        else weight p (Cmd (restart_command w)) + Nat.max n n'))
    (_recover w (S fuel) restarted).
Proof using p_cmd p_remove p_create.
  intros Hset Hrec. simpl.
  pose proof (restart_stage_bounded restarted n n' _ _ Hrec
                (recreate_stage_bounded n _ Hset)) as Hstage.
  set (B := (if restarted then n else _)) in *.
  assert (Hn : (n <= B)%nat) by (unfold B; destruct restarted; lia).
  eapply bounded_bind; [apply bounded_emit | lia | intros _].
  eapply bounded_bind with (a := 0%nat);
    [apply bounded_try, command_neutral; done | lia | intros r].
  destruct r as [[]|]; try apply bounded_raise.
  - eapply bounded_bind; [apply (bounded_logger _ 0) | lia | intros _].
    eapply bounded_weaken; [exact Hstage | lia].
  - eapply bounded_bind; [apply (bounded_logger _ 0) | lia | intros _].
    eapply bounded_weaken; [exact Hstage | lia].
  - eapply bounded_weaken; [exact Hset | lia].
Qed.

(** The whole cascade: with fuel for three calls it ends, having entered
    [_recover] at most twice (once with each flag), issued at most one
    restart, and entered the retried [_set_env] at most once. *)
Lemma cascade_bounded (n : nat) :
  bounded p
    (weight p (Call_recover false) + weight p (Cmd (restart_command w))
     + weight p (Call_recover true) + weight p (Call_set_env true))
    (_recover w (S (S (S n))) false).
Proof using p_cmd p_remove p_create.
  eapply bounded_weaken.
  - apply recover_bounded; [apply set_env_retried_bounded | intros _].
    apply recover_bounded with (n' := 0%nat);
      [apply set_env_retried_bounded | done].
  - simpl. lia.
Qed.

(** Once restarted, the cascade issues no restart. *)
Lemma cascade_restarted_bounded (n : nat) :
  bounded p (weight p (Call_recover true) + weight p (Call_set_env true))
    (_recover w (S (S n)) true).
Proof using p_cmd p_remove p_create.
  eapply bounded_weaken.
  - apply recover_bounded with (n' := 0%nat);
      [apply set_env_retried_bounded | done].
  - simpl. lia.
Qed.

End Cascade.

Lemma set_env_first_bounded (w : World) (p : Event -> bool) (fuel n : nat) :
  (forall c, c_name c <> u "restart" -> p (Cmd c) = false) ->
  bounded p n (_recover w fuel false) ->
  bounded p (weight p (Call_set_env false) + n) (_set_env w (S fuel) false).
Proof.
  intros Hcmd Hrec. simpl.
  eapply bounded_bind; [apply bounded_emit | lia | intros _].
  eapply bounded_bind with (a := 0%nat);
    [apply bounded_try, command_neutral; done | lia | intros r].
  destruct r as [[]|[[|c o]|]];
    try apply bounded_raise; try apply bounded_logger.
  - eapply bounded_bind; [apply (bounded_logger _ 0) | lia | intros _].
    eapply bounded_bind; [apply (bounded_logger _ 0) | lia | intros _].
    cbn [negb]. eapply bounded_weaken; [exact Hrec | lia].
  - eapply bounded_bind;
      [apply bounded_set_env_from_output | lia | intros _].
    apply bounded_logger.
Qed.

(** ** Creating in the course of a run *)

Lemma count_zero_Forall (p : Event -> bool) (evs : list Event) :
  count p evs = 0%nat -> Forall (fun ev => p ev = false) evs.
Proof.
  induction evs as [|ev evs IH]; simpl; intros H; [constructor|].
  unfold weight in H. destruct (p ev) eqn:Hp; [lia|].
  constructor; [done | apply IH; lia].
Qed.

Lemma not_other_create (w : World) (ev : Event) :
  is_other_create w ev = false -> is_create_call ev = true ->
  ev = Call_create (Some (_vm_name w)) ∅.
Proof.
  destruct ev as [| | | | | |vm_name params| |]; simpl; try done.
  intros H _. apply negb_false_iff, bool_decide_eq_true in H as [-> Hd].
  apply dom_empty_iff_L in Hd. by subst.
Qed.

Lemma vms_trace (w : World) (st : State) :
  trace (vms w st).2 = Cmd list_command :: trace st.
Proof.
  rewrite vms_run. cbv zeta.
  by destruct (completion _) as [[[|c o]|]|so].
Qed.

Section Creating.

Context (w : World) (p : Event -> bool).

(** [p] is a kind of event that only an entry into [create] or a fetch of
    the configuration can belong to. *)
Hypothesis p_only :
  forall ev, p ev = true -> is_create_call ev = true \/ ev = Ext_get_config.

Lemma weight_other (ev : Event) :
  is_create_call ev = false -> ev <> Ext_get_config -> weight p ev = 0%nat.
Proof using p_only.
  intros Hc Hg. unfold weight. destruct (p ev) eqn:Hp; [|done].
  destruct (p_only ev Hp) as [H|H]; congruence.
Qed.

Lemma p_command (c : Command) : p (Cmd c) = false.
Proof using p_only.
  pose proof (weight_other (Cmd c) eq_refl ltac:(done)) as H.
  unfold weight in H. by destruct (p (Cmd c)).
Qed.

Lemma p_removal (name : str) : p (Ext_remove name) = false.
Proof using p_only.
  pose proof (weight_other (Ext_remove name) eq_refl ltac:(done)) as H.
  unfold weight in H. by destruct (p (Ext_remove name)).
Qed.

(** The recovery's own call, [create(self._vm_name)]. *)
Local Notation "'again'" :=
  (weight p (Call_create (Some (_vm_name w)) ∅)) (only parsing).

Lemma create_counted (vm_name : option str) (params : gmap str pyval) :
  bounded p (weight p (Call_create vm_name params))
    (create w vm_name params).
Proof using p_only.
  intros st.
  destruct (create_trace w vm_name params st) as (evs & Ht & Hevs & Hf).
  exists (evs ++ [Call_create vm_name params]).
  rewrite <- app_assoc. split; [done|]. split; [|done].
  rewrite count_app. simpl.
  destruct Hevs as [-> | ->]; simpl; [lia|].
  rewrite (weight_other (Cmd _)) by done. lia.
Qed.

Lemma set_env_retried_counted (fuel : nat) :
  bounded p 0 (_set_env w (S fuel) true).
Proof using p_only.
  eapply bounded_weaken.
  - apply set_env_retried_bounded. intros c _. apply p_command.
  - by rewrite weight_other.
Qed.

Lemma recreate_stage_counted (n : nat) (final : M unit) :
  bounded p n final -> bounded p (again + n) (recreate_stage w final).
Proof using p_only.
  intros Hfinal. unfold recreate_stage.
  eapply bounded_bind with (a := again); [|lia|].
  - apply bounded_try.
    eapply bounded_bind with (a := 0%nat);
      [apply remove_neutral, p_removal | lia | intros removed].
    destruct removed; [|apply bounded_ret].
    eapply bounded_bind; [apply create_counted | lia |].
    intros _. apply bounded_ret.
  - intros r. eapply bounded_bind with (a := 0%nat); [|lia|].
    + destruct r as [[]|]; first [apply bounded_logger | apply bounded_raise
                                 | apply bounded_ret].
    + intros _. eapply bounded_weaken; [exact Hfinal | lia].
Qed.

Lemma restart_stage_counted (restarted : bool) (n : nat)
    (renewed recreate : M unit) :
  (restarted = false -> bounded p n renewed) ->
  bounded p n recreate ->
  bounded p n (restart_stage w restarted renewed recreate).
Proof using p_only.
  intros Hrenewed Hrecreate. eapply bounded_weaken.
  - apply (restart_stage_bounded w p restarted n n); eassumption.
  - destruct restarted; [lia|]. rewrite weight_other by done. lia.
Qed.

Lemma recover_counted (fuel : nat) (restarted : bool) :
  bounded p 0 (_set_env w fuel true) ->
  (restarted = false -> bounded p again (_recover w fuel true)) ->
  bounded p again (_recover w (S fuel) restarted).
Proof using p_only.
  intros Hset Hrec. simpl.
  assert (Hstage : bounded p again
            (restart_stage w restarted (_recover w fuel true)
               (recreate_stage w (_set_env w fuel true)))).
  { apply restart_stage_counted; [exact Hrec|].
    eapply bounded_weaken; [apply recreate_stage_counted, Hset | lia]. }
  eapply bounded_bind with (a := 0%nat).
  { eapply bounded_weaken; [apply bounded_emit|]. by rewrite weight_other. }
  { lia. }
  intros _. eapply bounded_bind with (a := 0%nat).
  { apply bounded_try. eapply bounded_weaken; [apply bounded_command|].
    by rewrite weight_other. }
  { lia. }
  intros r. destruct r as [[]|]; try apply bounded_raise.
  - eapply bounded_bind; [apply (bounded_logger _ 0) | lia | intros _].
    eapply bounded_weaken; [exact Hstage | lia].
  - eapply bounded_bind; [apply (bounded_logger _ 0) | lia | intros _].
    eapply bounded_weaken; [exact Hstage | lia].
  - eapply bounded_weaken; [exact Hset | lia].
Qed.

(** A synchronisation creates at most once, in its recovery. *)
Lemma set_env_counted (n : nat) :
  bounded p again (_set_env w (4 + n) false).
Proof using p_only.
  change (4 + n)%nat with (S (S (S (S n)))).
  eapply bounded_weaken.
  - apply set_env_first_bounded; [intros c _; apply p_command|].
    apply recover_counted; [apply set_env_retried_counted | intros _].
    apply recover_counted; [apply set_env_retried_counted | done].
  - rewrite weight_other by done. lia.
Qed.

(** What [setup] does once the VM is there. *)
Lemma setup_rest_counted (n : nat) :
  bounded p again
    (running <- vm_running w ;;
     (if negb running then restore_vm w else ret tt) ;;
     _set_env w (4 + n) false).
Proof using p_only.
  eapply bounded_bind with (a := 0%nat); [|lia|].
  { unfold vm_running. eapply bounded_bind with (a := 0%nat); [|lia|].
    - eapply bounded_weaken; [apply bounded_observe|].
      by rewrite weight_other.
    - intros r. apply bounded_returned. }
  intros running. eapply bounded_bind with (a := 0%nat); [|lia|].
  { destruct running; cbn [negb]; [apply bounded_ret|].
    unfold restore_vm. eapply bounded_bind with (a := 0%nat); [|lia|].
    - eapply bounded_weaken; [apply bounded_observe|].
      by rewrite weight_other.
    - intros r. apply bounded_returned. }
  intros _. eapply bounded_weaken; [apply set_env_counted | lia].
Qed.

End Creating.

(** Once the VM is there, [setup] ends, does not fetch the configuration,
    and enters [create] at most once, as [create(self._vm_name)]. *)
Lemma setup_rest_creates (w : World) (n : nat) (st : State) :
  let rest := (running <- vm_running w ;;
               (if negb running then restore_vm w else ret tt) ;;
               _set_env w (4 + n) false)%py in
  exists evs,
    trace (rest st).2 = evs ++ trace st
    /\ count is_get_config evs = 0%nat
    /\ (count is_create_call evs <= 1)%nat
    /\ Forall (fun ev => is_create_call ev = true ->
                         ev = Call_create (Some (_vm_name w)) ∅) evs
    /\ (rest st).1 <> Fuel.
Proof.
  intros rest.
  destruct (setup_rest_counted w is_create_call ltac:(by left) n st)
    as (evs & Ht & Hc & Hf).
  destruct (setup_rest_counted w is_get_config
              ltac:(intros [] ?; by (left + right)) n st)
    as (evs2 & Ht2 & Hc2 & _).
  destruct (setup_rest_counted w (is_other_create w)
              ltac:(intros [] ?; by (left + right)) n st)
    as (evs3 & Ht3 & Hc3 & _).
  fold rest in Ht, Ht2, Ht3, Hf.
  assert (evs2 = evs) as ->
    by (apply (app_inv_tail (trace st)); by rewrite <- Ht, <- Ht2).
  assert (evs3 = evs) as ->
    by (apply (app_inv_tail (trace st)); by rewrite <- Ht, <- Ht3).
  assert (Hown : weight (is_other_create w)
                   (Call_create (Some (_vm_name w)) ∅) = 0%nat).
  { unfold weight. simpl. rewrite bool_decide_eq_true_2; [done|].
    split; [done | apply dom_empty_L]. }
  exists evs. split; [exact Ht|]. split; [change (weight is_get_config _) with 0%nat in Hc2; lia|].
  split; [exact Hc|]. split; [|exact Hf].
  rewrite Hown in Hc3.
  eapply Forall_impl; [apply (count_zero_Forall (is_other_create w)); lia|].
  intros ev Hev Hcall. by apply not_other_create.
Qed.

(** ** Synchronising the environment *)

(** A retried [_set_env] issues the [env] command and nothing else. *)
Lemma set_env_retried_trace (w : World) (fuel : nat) (st : State) :
  trace (_set_env w (S fuel) true st).2
  = Cmd (env_command w) :: Call_set_env true :: trace st.
Proof.
  simpl. run. fold (env_command w).
  destruct (completion _) as [[[|c o]|]|so]; try reflexivity.
  pose proof (set_env_from_output_trace w (c :: o)
                (push_event (Cmd (env_command w))
                   (push_event (Call_set_env true) st))) as Ht.
  destruct (_set_env_from_output w (c :: o) _) as [[[]|e|] st1];
    simpl in *; by rewrite Ht.
Qed.

(** C3: when the [env] command exits non-zero, [_set_env] with
    [retried=False] logs and hands over to [_recover]: its outcome is
    [_recover]'s, whatever that is.  With [retried=True] it logs the
    remediation guidance and raises the error of the command, having
    entered neither [_recover] nor anything else. *)
Theorem set_env_on_failure (w : World) (st : State) (fuel : nat)
    (retried : bool) (so : option bytes) :
  completion (tool w (Call_set_env retried :: trace st) (env_command w))
    = ExitNonZero so ->
  let st' :=
    push_log {| level := DEBUG; msg := u "DockerMachine_output: %s";
                args := [LOut so] |}
      (push_log {| level := WARNING;
                   msg := u "Failed to update env for VM: %s";
                   args := [LExn (CalledProcessError so)] |}
         (push_event (Cmd (env_command w))
            (push_event (Call_set_env retried) st))) in
  _set_env w (S fuel) retried st =
    (if retried then
       (Exc (CalledProcessError so),
        push_log {| level := ERROR; msg := typical_solution_s; args := [] |}
                 st')
     else _recover w fuel false st')
  /\ (retried = true ->
      trace (_set_env w (S fuel) retried st).2
      = Cmd (env_command w) :: Call_set_env true :: trace st
      /\ count is_recover_call (trace (_set_env w (S fuel) retried st).2)
         = count is_recover_call (trace st)).
Proof.
  intros Hrun st'. assert (Heq : _set_env w (S fuel) retried st =
    (if retried then
       (Exc (CalledProcessError so),
        push_log {| level := ERROR; msg := typical_solution_s; args := [] |}
                 st')
     else _recover w fuel false st')).
  { simpl. run. fold (env_command w). cbn [trace push_event].
    rewrite Hrun. by destruct retried. }
  split; [exact Heq|]. intros ->. rewrite Heq. simpl. done.
Qed.

Lemma set_env_on_failure_witness :
  _set_env w_env_fails 1 true st0 =
    (Exc (CalledProcessError None),
     push_log {| level := ERROR; msg := typical_solution_s; args := [] |}
       (push_log {| level := DEBUG; msg := u "DockerMachine_output: %s";
                    args := [LOut None] |}
          (push_log {| level := WARNING;
                       msg := u "Failed to update env for VM: %s";
                       args := [LExn (CalledProcessError None)] |}
             (push_event (Cmd (env_command w_env_fails))
                (push_event (Call_set_env true) st0)))))
  /\ (true = true ->
      trace (_set_env w_env_fails 1 true st0).2
      = Cmd (env_command w_env_fails) :: Call_set_env true :: trace st0
      /\ count is_recover_call (trace (_set_env w_env_fails 1 true st0).2)
         = count is_recover_call (trace st0)).
Proof.
  apply (set_env_on_failure w_env_fails st0 0 true None). reflexivity.
Defined.

(** ** Recovery *)

(** C4: a recovery started with [restarted=False] and fuel for three
    calls ends; it issues at most one restart command and enters
    [_recover] at most twice, at most once with [restarted=False].  A
    recovery entered with [restarted=True] issues no restart command. *)
Theorem recover_restarts_at_most_once (w : World) (st : State) (n : nat) :
  (exists evs,
     trace (_recover w (3 + n) false st).2 = evs ++ trace st
     /\ (count is_restart evs <= 1)%nat
     /\ (count is_recover_call evs <= 2)%nat
     /\ (count is_first_recover_call evs <= 1)%nat
     /\ (_recover w (3 + n) false st).1 <> Fuel)
  /\ (exists evs,
        trace (_recover w (2 + n) true st).2 = evs ++ trace st
        /\ count is_restart evs = 0%nat
        /\ (_recover w (2 + n) true st).1 <> Fuel).
Proof.
  assert (Hcmd : forall c, c_name c <> u "restart" -> is_restart (Cmd c) = false).
  { intros c Hc. simpl. by apply bool_decide_eq_false_2. }
  split.
  - destruct (cascade_bounded w is_restart Hcmd
                ltac:(done) ltac:(done) n st) as (evs & Ht & Hc & Hf).
    destruct (cascade_bounded w is_recover_call
                ltac:(done) ltac:(done) ltac:(done) n st)
      as (evs2 & Ht2 & Hc2 & _).
    destruct (cascade_bounded w is_first_recover_call
                ltac:(done) ltac:(done) ltac:(done) n st)
      as (evs3 & Ht3 & Hc3 & _).
    assert (evs2 = evs) as ->
      by (apply (app_inv_tail (trace st)); by rewrite <- Ht, <- Ht2).
    assert (evs3 = evs) as ->
      by (apply (app_inv_tail (trace st)); by rewrite <- Ht, <- Ht3).
    exists evs. change (3 + n)%nat with (S (S (S n))).
    repeat split; [done | exact Hc | exact Hc2 | exact Hc3 | done].
  - destruct (cascade_restarted_bounded w is_restart Hcmd
                ltac:(done) ltac:(done) n st) as (evs & Ht & Hc & Hf).
    exists evs. change (2 + n)%nat with (S (S n)).
    repeat split; [done | | done]. apply Nat.le_0_r. exact Hc.
Qed.

(** C5: when the regenerate-certificates command succeeds within its
    timeout, [_recover] is the retried [_set_env] from there on, and the
    events of the invocation are the entry, that command, and the entry
    and [env] command of [_set_env]: no restart, no removal, no creation. *)
Theorem recover_regenerated (w : World) (st : State) (fuel : nat)
    (restarted : bool) (out : option str) :
  let run := tool w (Call_recover restarted :: trace st)
                  (regenerate_certs_command w) in
  (duration run <= REGENERATE_CERTIFICATES_TIMEOUT)%N ->
  completion run = Exit0 out ->
  let st' := push_event (Cmd (regenerate_certs_command w))
               (push_event (Call_recover restarted) st) in
  _recover w (S fuel) restarted st = _set_env w fuel true st'
  /\ trace (_recover w (S (S fuel)) restarted st).2
     = Cmd (env_command w) :: Call_set_env true
       :: Cmd (regenerate_certs_command w) :: Call_recover restarted
       :: trace st.
Proof.
  intros run Hdur Hexit st'.
  assert (Heq : forall f,
            _recover w (S f) restarted st = _set_env w f true st').
  { intros f. simpl. run. fold (regenerate_certs_command w).
    cbn [trace push_event]. fold run.
    replace (REGENERATE_CERTIFICATES_TIMEOUT <? duration run) with false
      by (symmetry; apply N.ltb_ge; exact Hdur).
    rewrite Hexit. reflexivity. }
  split; [apply Heq|]. rewrite Heq, set_env_retried_trace. reflexivity.
Qed.

Lemma recover_regenerated_witness :
  _recover w_env_fails 1 false st0
  = _set_env w_env_fails 0 true
      (push_event (Cmd (regenerate_certs_command w_env_fails))
         (push_event (Call_recover false) st0))
  /\ trace (_recover w_env_fails 2 false st0).2
     = Cmd (env_command w_env_fails) :: Call_set_env true
       :: Cmd (regenerate_certs_command w_env_fails) :: Call_recover false
       :: trace st0.
Proof.
  apply (recover_regenerated w_env_fails st0 0 false (Some [])).
  - by vm_compute.
  - reflexivity.
Defined.

(** ** The end of the cascade *)

Lemma pop_constraints_empty (w : World) : (pop_constraints w ∅).2 = ∅.
Proof.
  unfold pop_constraints.
  assert (H : forall table (cs : gmap str pyval),
            (fold_left
               (fun '(constraints, params) '(k, v) =>
                  (<[k := default VNone (params !! v)]> constraints,
                   delete v params))
               table (cs, (∅ : gmap str pyval))).2 = ∅).
  { induction table as [|[k v] table IH]; intros cs; simpl; [done|].
    rewrite delete_empty. apply IH. }
  apply H.
Qed.

(** Without keywords there is nothing for [create] to reject. *)
Lemma keywords_ok_empty (w : World) : keywords_ok w ∅ = true.
Proof.
  unfold keywords_ok, share_a_key. rewrite pop_constraints_empty.
  rewrite dom_empty_L, intersection_empty_r_L.
  rewrite bool_decide_eq_true_2 by done. reflexivity.
Qed.

Section Ending.

Context (w : World).

Lemma quiet_weaken {A} (P Q : A -> Prop) (m : M A) :
  quiet P m -> (forall x, P x -> Q x) -> quiet Q m.
Proof.
  intros Hm HPQ st. destruct (Hm st) as (evs & Ht & Hc & [(x & Hx & HP)|He]).
  - exists evs. repeat split; [done..|]. left. exists x. auto.
  - exists evs. repeat split; [done..|]. by right.
Qed.

Lemma quiet_ret {A} (P : A -> Prop) (a : A) : P a -> quiet P (ret a).
Proof.
  intros HP st. exists []. repeat split; [done..|]. left. by exists a.
Qed.

Lemma quiet_logger lvl m a : quiet (fun _ => True) (logger lvl m a).
Proof.
  intros st. exists []. repeat split; [done..|]. left. by exists tt.
Qed.

Lemma quiet_bind {A B} (P : A -> Prop) (Q : B -> Prop) (m : M A)
    (k : A -> M B) :
  quiet P m -> (forall x, P x -> quiet Q (k x)) -> quiet Q (bind m k).
Proof.
  intros Hm Hk st. unfold bind.
  destruct (Hm st) as (evs & Ht & Hc & [(x & Hx & HP)|He]).
  - destruct (m st) as [r st1]. simpl in *. subst r.
    destruct (Hk x HP st1) as (evs' & Ht' & Hc' & Hr).
    exists (evs' ++ evs). rewrite Ht', Ht, count_app, Hc, Hc', app_assoc.
    repeat split; done.
  - destruct (m st) as [r st1]. simpl in *. subst r.
    exists evs. repeat split; [done..|]. by right.
Qed.

(** A command, tried: it completes, exits non-zero or times out. *)
Lemma quiet_try_command name vm args timeout :
  quiet (fun r => match r with
                  | inr _ | inl (CalledProcessError _) | inl TimeoutExpired =>
                      True
                  | _ => False
                  end)
        (try_ (command w name vm args timeout)).
Proof.
  intros st. exists [Cmd {| c_name := name; c_vm := vm; c_args := args;
                            c_timeout := timeout |}].
  unfold try_, command. run.
  destruct (match timeout with Some _ => _ | None => _ end);
    [|destruct (completion _)];
    (repeat split; [done..|]); left; eexists; split; done.
Qed.

(** Removal and re-creation, tried: done, a non-zero exit of the removal,
    or the [UnicodeDecodeError] of [create]. *)
Lemma quiet_try_recreate :
  quiet (fun r => match r with
                  | inr _ | inl (CalledProcessError _)
                  | inl UnicodeDecodeError => True
                  | _ => False
                  end)
        (try_ (removed <- remove w (_vm_name w) ;;
               if removed then create w (Some (_vm_name w)) ∅ ;; ret tt
               else ret tt)).
Proof.
  intros st. unfold try_, remove. run.
  destruct (base_remove w (trace st) (_vm_name w)) as [[|]|so].
  - rewrite (create_run w _ _ _ (keywords_ok_empty w)). cbv zeta.
    destruct (completion _) as [out|[b|]]; [|destruct (decode_utf8 b)|];
      (eexists [_; _; _]; repeat split; [done..|]);
      left; eexists; split; done.
  - exists [Ext_remove (_vm_name w)]. repeat split; [done..|].
    left. eexists. split; done.
  - exists [Ext_remove (_vm_name w)]. repeat split; [done..|].
    left. eexists. split; done.
Qed.

Lemma ends_bind {A} (P : A -> Prop) (m : M A) (k : A -> M unit) :
  quiet P m -> (forall x, P x -> ends_with_set_env w (k x)) ->
  ends_with_set_env w (bind m k).
Proof.
  intros Hm Hk st. unfold bind.
  destruct (Hm st) as (evs & Ht & Hc & [(x & Hx & HP)|He]).
  - destruct (m st) as [r st1]. simpl in *. subst r.
    destruct (Hk x HP st1) as [(evs' & Ht' & Hc' & He')|(evs' & Ht' & Hc')].
    + left. exists (evs' ++ evs).
      rewrite Ht', Ht, count_app, Hc, Hc', app_assoc. done.
    + right. exists (evs' ++ evs).
      rewrite Ht', Ht, count_app, Hc, Hc', app_assoc. done.
  - destruct (m st) as [r st1]. simpl in *. subst r.
    left. exists evs. done.
Qed.

Lemma ends_raise : ends_with_set_env w (raise UnicodeDecodeError).
Proof. intros st. left. exists []. done. Qed.

Lemma ends_set_env (fuel : nat) :
  ends_with_set_env w (_set_env w (S fuel) true).
Proof.
  intros st. right. exists []. by rewrite set_env_retried_trace.
Qed.

Lemma ends_recreate_stage (final : M unit) :
  ends_with_set_env w final -> ends_with_set_env w (recreate_stage w final).
Proof.
  intros Hfinal. unfold recreate_stage.
  eapply ends_bind; [apply quiet_try_recreate | intros r Hr].
  eapply ends_bind with (P := fun _ => True); [|intros _ _; exact Hfinal].
  destruct r as [[]|]; try done;
    first [ apply quiet_logger
          | by apply quiet_ret
          | intros st; exists []; repeat split; [done..|]; by right ].
Qed.

Lemma ends_restart_stage (restarted : bool) (again recreate : M unit) :
  (restarted = false -> ends_with_set_env w again) ->
  ends_with_set_env w recreate ->
  ends_with_set_env w (restart_stage w restarted again recreate).
Proof.
  intros Hagain Hrecreate. unfold restart_stage.
  destruct restarted; simpl negb; cbv iota; [exact Hrecreate|].
  specialize (Hagain eq_refl).
  eapply ends_bind; [apply quiet_try_command | intros r Hr].
  destruct r as [[]|]; try done.
  - eapply ends_bind; [apply quiet_logger | intros _ _; exact Hrecreate].
  - eapply ends_bind; [apply quiet_logger | intros _ _; exact Hrecreate].
Qed.

Lemma ends_recover_level (fuel : nat) (restarted : bool) :
  ends_with_set_env w (_set_env w fuel true) ->
  (restarted = false -> ends_with_set_env w (_recover w fuel true)) ->
  ends_with_set_env w (_recover w (S fuel) restarted).
Proof.
  intros Hset Hrec. simpl.
  pose proof (ends_restart_stage restarted _ _ Hrec
                (ends_recreate_stage _ Hset)) as Hstage.
  eapply ends_bind with (P := fun _ => True).
  { intros st. exists [Call_recover restarted].
    repeat split; [done..|]. left. by exists tt. }
  intros _ _. eapply ends_bind; [apply quiet_try_command | intros r Hr].
  destruct r as [[]|]; try done.
  - eapply ends_bind; [apply quiet_logger | intros _ _; exact Hstage].
  - eapply ends_bind; [apply quiet_logger | intros _ _; exact Hstage].
Qed.

End Ending.

(** Apart from the [UnicodeDecodeError] of [create], every run of the
    cascade ends with the retried [_set_env], entered exactly once and
    last: its entry and its [env] command are the newest events. *)
Lemma recover_ends_with_set_env (w : World) (st : State) (n : nat) :
  (exists evs,
     trace (_recover w (3 + n) false st).2 = evs ++ trace st
     /\ count is_retried_set_env evs = 0%nat
     /\ (_recover w (3 + n) false st).1 = Exc UnicodeDecodeError)
  \/ (exists evs,
        trace (_recover w (3 + n) false st).2
          = Cmd (env_command w) :: Call_set_env true :: evs ++ trace st
        /\ count is_retried_set_env evs = 0%nat).
Proof.
  change (3 + n)%nat with (S (S (S n))).
  apply ends_recover_level; [apply ends_set_env | intros _].
  apply ends_recover_level; [apply ends_set_env | done].
Qed.

(** C6: the claim holds of the code only while [create] does not raise.
    When the environment cannot be exported, regeneration and restart
    fail, the VM is removed and its re-creation exits non-zero having
    printed Latin-1, [_recover] raises [UnicodeDecodeError] out of the
    last stage and never enters the retried [_set_env]. *)
Theorem recover_raises_on_undecodable_stdout :
  (_recover w_recover_latin1 3 false st0).1 = Exc UnicodeDecodeError
  /\ trace (_recover w_recover_latin1 3 false st0).2
     = [Cmd (create_command w_recover_latin1 (u "golem"));
        Call_create (Some (u "golem")) ∅;
        Ext_remove (u "golem");
        Cmd (restart_command w_recover_latin1);
        Cmd (regenerate_certs_command w_recover_latin1);
        Call_recover false]
  /\ count is_retried_set_env
       (trace (_recover w_recover_latin1 3 false st0).2) = 0%nat.
Proof. repeat split; by vm_compute. Qed.

(** ** Setting up *)

(** C1: [setup] itself calls [create] once, and [create] can be entered
    a second time.  With only a VM of another name listed, [setup] creates
    the VM; the environment cannot be exported, regeneration and restart
    fail, and the recovery removes the VM and creates it again: [create]
    is entered twice, here with the same arguments both times. *)
Lemma setup_creates_twice :
  vms (w_recreate ∅) st0
    = (Val [u "other-vm"], push_event (Cmd list_command) st0)
  /\ trace (setup (w_recreate ∅) 4 st0).2
     = [Cmd (env_command (w_recreate ∅)); Call_set_env true;
        Cmd (create_command (w_recreate ∅) (u "golem"));
        Call_create (Some (u "golem")) ∅;
        Ext_remove (u "golem");
        Cmd (restart_command (w_recreate ∅));
        Cmd (regenerate_certs_command (w_recreate ∅));
        Call_recover false;
        Cmd (env_command (w_recreate ∅)); Call_set_env false;
        Ext_vm_running;
        Cmd (create_command (w_recreate ∅) (u "golem"));
        Call_create (Some (u "golem")) ∅;
        Ext_get_config;
        Cmd list_command]
  /\ count is_create_call (trace (setup (w_recreate ∅) 4 st0).2) = 2%nat.
Proof. repeat split; by vm_compute. Qed.

(** The same with a configuration: the second call passes none of it. *)
Example setup_creates_twice_config :
  filter (fun ev => is_create_call ev = true)
    (trace (setup (w_recreate {[ u "memory_size" := VInt 1024 ]}) 4 st0).2)
  = [Call_create (Some (u "golem")) ∅;
     Call_create (Some (u "golem")) {[ u "memory_size" := VInt 1024 ]}].
Proof. by vm_compute. Qed.

(** C1, amended: when the managed name is not among the names that [vms]
    returns, [setup] fetches the configuration and calls [create] with the
    managed name and that configuration; nothing was created before, and
    what [setup] does next is decided by that one call, which enters
    [create] once.  If it returns [False], [setup] logs the warning and
    raises, and [create] has been entered exactly once in the whole of
    [setup].  Otherwise [setup] ends, and after that call [create] is
    entered at most once more, as [create(self._vm_name)] without the
    configuration (the call of [_recover]); so a run of [setup] enters
    [create] once or twice. *)
Theorem setup_attempts_create (w : World) (fuel n : nat)
    (st st1 : State) (names : list str) :
  vms w st = (Val names, st1) ->
  _vm_name w ∉ names ->
  let config := get_config_fn w (trace st1) in
  let st2 := push_event Ext_get_config st1 in
  let attempt := create w (Some (_vm_name w)) config st2 in
  setup w fuel st =
    match attempt with
    | (Val true, st3) =>
        (running <- vm_running w ;;
         (if negb running then restore_vm w else ret tt) ;;
         _set_env w fuel false) st3
    | (Val false, st3) =>
        (Exc (Exception_ (u "Docker: No vm available and failed to create")),
         push_log {| level := WARNING;
                     msg := u "%s: Vm (%s) not found and create failed";
                     args := [LStr (DRIVER_NAME w); LStr (_vm_name w)] |}
                  st3)
    | (Exc e, st3) => (Exc e, st3)
    | (Fuel, st3) => (Fuel, st3)
    end
  /\ trace st2 = [Ext_get_config; Cmd list_command] ++ trace st
  /\ (exists evs,
        trace attempt.2
          = evs ++ Call_create (Some (_vm_name w)) config :: trace st2
        /\ count is_create_call evs = 0%nat)
  /\ (attempt.1 = Val false ->
      (setup w fuel st).1
        = Exc (Exception_ (u "Docker: No vm available and failed to create"))
      /\ exists evs,
           trace (setup w fuel st).2 = evs ++ trace st
           /\ count is_create_call evs = 1%nat)
  /\ (exists evs,
        trace (setup w (4 + n) st).2 = evs ++ trace attempt.2
        /\ (count is_create_call evs <= 1)%nat
        /\ Forall (fun ev => is_create_call ev = true ->
                             ev = Call_create (Some (_vm_name w)) ∅) evs
        /\ (setup w (4 + n) st).1 <> Fuel)
  /\ (exists evs,
        trace (setup w (4 + n) st).2 = evs ++ trace st
        /\ (1 <= count is_create_call evs <= 2)%nat).
Proof.
  intros Hvms Habsent config st2 attempt.
  assert (Heq : forall fuel, setup w fuel st =
    match attempt with
    | (Val true, st3) =>
        (running <- vm_running w ;;
         (if negb running then restore_vm w else ret tt) ;;
         _set_env w fuel false) st3
    | (Val false, st3) =>
        (Exc (Exception_ (u "Docker: No vm available and failed to create")),
         push_log {| level := WARNING;
                     msg := u "%s: Vm (%s) not found and create failed";
                     args := [LStr (DRIVER_NAME w); LStr (_vm_name w)] |}
                  st3)
    | (Exc e, st3) => (Exc e, st3)
    | (Fuel, st3) => (Fuel, st3)
    end).
  { intros fuel'. unfold setup, bind at 1. rewrite Hvms.
    rewrite bool_decide_eq_true_2 by done.
    unfold bind at 1. unfold bind at 1. unfold _get_config, observe.
    fold config. fold st2. unfold bind at 1. fold attempt.
    destruct attempt as [[[]|e|] st3]; reflexivity. }
  assert (Hst2 : trace st2 = [Ext_get_config; Cmd list_command] ++ trace st).
  { pose proof (vms_trace w st) as Hrun. rewrite Hvms in Hrun.
    unfold st2. cbn [push_event trace snd] in *. by rewrite Hrun. }
  assert (Htrace : exists evs,
            trace attempt.2
              = evs ++ Call_create (Some (_vm_name w)) config :: trace st2
            /\ count is_create_call evs = 0%nat).
  { destruct (create_trace w (Some (_vm_name w)) config st2)
      as (evs & Ht & Hevs & _).
    exists evs. split; [exact Ht|]. by destruct Hevs as [-> | ->]. }
  assert (Hrest : exists evs,
            trace (setup w (4 + n) st).2 = evs ++ trace attempt.2
            /\ (count is_create_call evs <= 1)%nat
            /\ Forall (fun ev => is_create_call ev = true ->
                                 ev = Call_create (Some (_vm_name w)) ∅) evs
            /\ (setup w (4 + n) st).1 <> Fuel).
  { rewrite (Heq (4 + n)%nat).
    destruct (create_trace w (Some (_vm_name w)) config st2)
      as (_ & _ & _ & Hfuel). fold attempt in Hfuel.
    destruct attempt as [[[]|e|] st3]; cbn [fst snd] in *.
    - destruct (setup_rest_creates w n st3) as (evs & Ht & _ & Hc & Hall & Hf).
      exists evs. done.
    - exists []. repeat split; [simpl; lia | constructor | done].
    - exists []. repeat split; [simpl; lia | constructor | done].
    - done. }
  split; [exact (Heq fuel)|]. split; [exact Hst2|]. split; [exact Htrace|].
  split; [|split; [exact Hrest|]].
  - intros Hfalse. rewrite (Heq fuel). destruct Htrace as (evs & Ht & Hc).
    destruct attempt as [r st3]. cbn [fst snd] in Hfalse, Ht. subst r.
    split; [reflexivity|].
    exists (evs ++ [Call_create (Some (_vm_name w)) config; Ext_get_config;
                    Cmd list_command]).
    split.
    + cbn [snd push_log trace]. rewrite Ht, Hst2, <- app_assoc. reflexivity.
    + rewrite count_app, Hc. reflexivity.
  - destruct Hrest as (evs' & Ht' & Hc' & _).
    destruct Htrace as (evs & Ht & Hc).
    exists (evs' ++ evs ++ [Call_create (Some (_vm_name w)) config;
                            Ext_get_config; Cmd list_command]).
    split.
    + rewrite Ht', Ht, Hst2, <- !app_assoc. reflexivity.
    + rewrite !count_app, Hc.
      change (count is_create_call
                [Call_create (Some (_vm_name w)) config; Ext_get_config;
                 Cmd list_command]) with 1%nat.
      lia.
Qed.

Lemma setup_attempts_create_witness :
  exists evs,
    trace (setup (w_recreate ∅) 4 st0).2 = evs ++ trace st0
    /\ (1 <= count is_create_call evs <= 2)%nat.
Proof.
  assert (Habsent : _vm_name (w_recreate ∅) ∉ [u "other-vm"]).
  { intros H. apply list_elem_of_In in H. simpl in H.
    destruct H as [H|[]]. vm_compute in H. discriminate. }
  destruct (setup_attempts_create (w_recreate ∅) 4 0 st0
              (push_event (Cmd list_command) st0) [u "other-vm"]
              eq_refl Habsent) as (_ & _ & _ & _ & _ & H).
  exact H.
Defined.

Example setup_create_fails_trace :
  trace (setup w_create_fails 4 st0).2
  = [Cmd (create_command w_create_fails (u "golem"));
     Call_create (Some (u "golem")) {[ u "memory_size" := VInt 1024 ]};
     Ext_get_config;
     Cmd list_command].
Proof. by vm_compute. Qed.

(** * Further properties *)

(** A decidable proposition that evaluates to true. *)
Ltac decide_true := apply (bool_decide_unpack _); by vm_compute.

(** ** Cutting strings *)

Lemma split_once_absent (c : char) (s : str) :
  c ∉ s -> split_once c s = [s].
Proof.
  induction s as [|x s IH]; intros Hc; simpl; [done|].
  apply not_elem_of_cons in Hc as [Hx Hs].
  destruct (N.eqb_spec x c) as [->|_]; [done|]. by rewrite IH.
Qed.

Lemma split_once_first (c : char) (a b : str) :
  c ∉ a -> split_once c (a ++ c :: b) = [a; b].
Proof.
  induction a as [|x a IH]; intros Hc; simpl.
  - by rewrite N.eqb_refl.
  - apply not_elem_of_cons in Hc as [Hx Ha].
    destruct (N.eqb_spec x c) as [->|_]; [done|]. by rewrite IH.
Qed.

Lemma split_on_absent (c : char) (s : str) : c ∉ s -> split_on c s = [s].
Proof.
  induction s as [|x s IH]; intros Hc; simpl; [done|].
  apply not_elem_of_cons in Hc as [Hx Hs].
  destruct (N.eqb_spec x c) as [->|_]; [done|]. by rewrite IH.
Qed.

Lemma split_on_nonempty (c : char) (s : str) : split_on c s <> [].
Proof.
  destruct s as [|x s]; simpl; [done|].
  destruct (x =? c); [done|]. by destruct (split_on c s).
Qed.

Lemma split_on_app (c : char) (a b : str) :
  c ∉ b -> split_on c (a ++ c :: b) = split_on c a ++ [b].
Proof.
  intros Hb. induction a as [|x a IH]; simpl.
  - by rewrite N.eqb_refl, split_on_absent.
  - destruct (x =? c); [by rewrite IH|]. rewrite IH.
    pose proof (split_on_nonempty c a).
    by destruct (split_on c a).
Qed.

Lemma join_split_on (c : char) (s : str) : join c (split_on c s) = s.
Proof.
  induction s as [|x s IH]; simpl; [done|].
  destruct (x =? c) eqn:Hx.
  - apply N.eqb_eq in Hx as ->.
    pose proof (split_on_nonempty c s).
    destruct (split_on c s) as [|w ws] eqn:Hs; [done|].
    simpl in *. by rewrite IH.
  - pose proof (split_on_nonempty c s).
    destruct (split_on c s) as [|w ws] eqn:Hs; [done|].
    destruct ws; simpl in *; by rewrite <- IH.
Qed.

Lemma but_last_snoc {A} (l : list A) (x : A) : but_last (l ++ [x]) = l.
Proof.
  unfold but_last. rewrite length_app. simpl.
  replace (length l + 1 - 1)%nat with (length l) by lia.
  apply take_app_length.
Qed.

(** The directory of a path: what precedes the last separator. *)
Lemma dirname_of_path (sep : char) (dir name : str) :
  sep ∉ name ->
  join sep (but_last (split_on sep (dir ++ sep :: name))) = dir.
Proof.
  intros Hname. by rewrite split_on_app, but_last_snoc, join_split_on.
Qed.

(** ** The lines of an export *)

Lemma line_kind_cut (cmd params : str) :
  SPACE ∉ cmd ->
  line_kind (cmd ++ SPACE :: params) =
  if bool_decide (lower cmd = u "set") then
    match unpack2 (split_once EQUALS params) with
    | inr (var, val) => Assigns var val
    | inl _ => Malformed
    end
  else Skipped.
Proof.
  intros Hcmd. unfold line_kind. rewrite split_once_first by done.
  by destruct cmd.
Qed.

(** What a line is taken for, by its shape. *)
Lemma line_kind_assigns (cmd var val : str) :
  SPACE ∉ cmd -> lower cmd = u "set" -> EQUALS ∉ var ->
  line_kind (cmd ++ SPACE :: var ++ EQUALS :: val) = Assigns var val.
Proof.
  intros Hcmd Hset Hvar. rewrite line_kind_cut by done.
  rewrite bool_decide_eq_true_2 by done.
  by rewrite split_once_first.
Qed.

Lemma line_kind_skipped (cmd rest : str) :
  SPACE ∉ cmd -> lower cmd <> u "set" ->
  line_kind (cmd ++ SPACE :: rest) = Skipped.
Proof.
  intros Hcmd Hset. rewrite line_kind_cut by done.
  by rewrite bool_decide_eq_false_2.
Qed.

Lemma line_kind_no_space (line : str) :
  line <> [] -> SPACE ∉ line -> line_kind line = Malformed.
Proof.
  intros Hne Hsp. unfold line_kind. rewrite split_once_absent by done.
  by destruct line.
Qed.

Lemma line_kind_no_equals (cmd rest : str) :
  SPACE ∉ cmd -> lower cmd = u "set" -> EQUALS ∉ rest ->
  line_kind (cmd ++ SPACE :: rest) = Malformed.
Proof.
  intros Hcmd Hset Hrest. rewrite line_kind_cut by done.
  rewrite bool_decide_eq_true_2 by done.
  by rewrite split_once_absent.
Qed.

(** One turn of the loop, by the kind of the line. *)
Lemma set_env_line_kind (w : World) (line : str) (st : State) :
  set_env_line w line st =
  match line_kind line with
  | Skipped => (Val tt, st)
  | Malformed => (Exc ValueError, st)
  | Assigns var val =>
      match environ_setitem w var val with
      | inl e => (Exc e, st)
      | inr key =>
          (Val tt,
           {| trace := trace st;
              environ := <[key := val]> (environ st);
              _config_dir :=
                if bool_decide (var = u "DOCKER_CERT_PATH") then
                  Some (join (os_path_sep w)
                          (but_last (split_on (os_path_sep w)
                                       (remove_char DQUOTE val))))
                else _config_dir st;
              log := log st |})
      end
  end.
Proof.
  unfold set_env_line, line_kind. destruct line as [|c line]; [done|]. run.
  destruct (split_once SPACE (c :: line)) as [|cmd [|params [|? ?]]];
    simpl; try reflexivity.
  destruct (decide (lower cmd = u "set")) as [Hset|Hset].
  - rewrite bool_decide_eq_false_2 by (intros H; by apply H).
    rewrite bool_decide_eq_true_2 by done.
    destruct (split_once EQUALS params) as [|var [|val [|? ?]]];
      simpl; try reflexivity.
    unfold set_environ, set_config_dir.
    destruct (environ_setitem w var val) as [e|key]; [reflexivity|].
    destruct (bool_decide (var = u "DOCKER_CERT_PATH")); reflexivity.
  - rewrite bool_decide_eq_true_2 by done.
    rewrite bool_decide_eq_false_2 by done. reflexivity.
Qed.

Lemma for_each_assignments (w : World) (lines : list str) (st : State) :
  Forall (fun l => line_error w l = None) lines ->
  exists st',
    for_each (set_env_line w) lines st = (Val tt, st')
    /\ environ st' = assign_all (environ st) (assignments w lines)
    /\ trace st' = trace st /\ log st' = log st.
Proof.
  intros HF. revert st. induction HF as [|l lines Hl _ IH]; intros st.
  - exists st. done.
  - simpl. unfold bind. rewrite set_env_line_kind.
    unfold assignments. simpl omap. fold (assignments w lines).
    unfold line_error in Hl.
    destruct (line_kind l) as [|var val|]; [| |done].
    + apply IH.
    + destruct (environ_setitem w var val) as [e|key]; [done|].
      destruct (IH {| trace := trace st;
                      environ := <[key := val]> (environ st);
                      _config_dir :=
                        if bool_decide (var = u "DOCKER_CERT_PATH") then
                          Some (join (os_path_sep w)
                                  (but_last (split_on (os_path_sep w)
                                               (remove_char DQUOTE val))))
                        else _config_dir st;
                      log := log st |}) as (st' & Hrun & Henv & Ht & Hl').
      exists st'. done.
Qed.

(** X1: when the loop stops at no line of the export (no line is
    malformed and [os.environ] takes every assignment),
    [_set_env_from_output] returns normally and the process environment is
    the earlier one updated by every [set VAR=VALUE] line in turn, each
    value under the key [os.environ] stores it under, a later assignment
    to a key replacing an earlier one; nothing is logged and no external
    call is made. *)
Theorem set_env_from_output_assignments (w : World) (output : str)
    (st : State) :
  Forall (fun l => line_error w l = None) (split_on LF output) ->
  (_set_env_from_output w output st).1 = Val tt
  /\ environ (_set_env_from_output w output st).2
     = assign_all (environ st) (assignments w (split_on LF output))
  /\ trace (_set_env_from_output w output st).2 = trace st
  /\ log (_set_env_from_output w output st).2 = log st.
Proof.
  intros HF. unfold _set_env_from_output.
  destruct (for_each_assignments w _ st HF) as (st' & -> & Henv & Ht & Hl).
  done.
Qed.

Lemma set_env_from_output_assignments_witness :
  (_set_env_from_output w_posix export_mixed st0).1 = Val tt
  /\ environ (_set_env_from_output w_posix export_mixed st0).2
     = assign_all (environ st0)
         (assignments w_posix (split_on LF export_mixed))
  /\ trace (_set_env_from_output w_posix export_mixed st0).2 = trace st0
  /\ log (_set_env_from_output w_posix export_mixed st0).2 = log st0.
Proof.
  apply (set_env_from_output_assignments w_posix export_mixed st0).
  repeat constructor; by vm_compute.
Defined.

Example export_mixed_last_wins :
  environ (_set_env_from_output w_posix export_mixed st0).2
    !! u "DOCKER_HOST" = Some (u "tcp://10.0.0.1:2376").
Proof. by vm_compute. Qed.

(** On Windows the two spellings of a name are one key. *)
Example export_windows_one_key :
  environ (_set_env_from_output w_windows
             (u "set docker_host=a" ++ [LF] ++ u "set DOCKER_HOST=b") st0).2
  = {[ u "DOCKER_HOST" := u "b" ]}.
Proof. by vm_compute. Qed.

(** X2: lines that do not begin with [set] (in any letter case) followed
    by a space are ignored: when every line of the export is empty or has
    a first space preceded by something other than [set], the state is
    left exactly as it was. *)
Theorem set_env_from_output_ignores_other_lines (w : World) (output : str)
    (st : State) :
  (forall l, l ∈ split_on LF output ->
     l = [] \/ exists cmd rest,
                 l = cmd ++ SPACE :: rest /\ (SPACE ∉ cmd)
                 /\ lower cmd <> u "set") ->
  _set_env_from_output w output st = (Val tt, st).
Proof.
  intros Hlines. unfold _set_env_from_output.
  induction (split_on LF output) as [|l lines IH]; simpl; [done|].
  unfold bind. rewrite set_env_line_kind.
  assert (Hl : line_kind l = Skipped).
  { destruct (Hlines l) as [->|(cmd & rest & -> & Hcmd & Hset)];
      [left | done | by apply line_kind_skipped]. }
  rewrite Hl. apply IH. intros l' Hl'. apply Hlines. by right.
Qed.

Lemma set_env_from_output_ignores_other_lines_witness :
  _set_env_from_output w_posix export_remarks st0 = (Val tt, st0).
Proof.
  apply (set_env_from_output_ignores_other_lines w_posix export_remarks st0).
  intros l Hl. vm_compute in Hl.
  apply elem_of_cons in Hl as [->|Hl].
  { right. exists (u "REM"), (u "Run this command to configure your shell").
    split; [reflexivity|]. split; [decide_true | by vm_compute]. }
  apply elem_of_cons in Hl as [->|Hl].
  { right. exists (u "@FOR"), (u "/f tokens IN (x) DO @y").
    split; [reflexivity|]. split; [decide_true | by vm_compute]. }
  apply elem_of_cons in Hl as [->|Hl]; [by left|].
  by apply elem_of_nil in Hl.
Defined.

(** X3: the loop stops at the first line it cannot process, with the
    exception of that line: [ValueError] for a line it cannot unpack (a
    non-empty line without a space, a [set] line with no [=] after the
    space), and for an assignment that [os.environ] refuses the exception
    [os.environ] raises.  The assignments of the lines before it have
    taken effect and those of the lines after it have not. *)
Theorem set_env_from_output_stops_at_first_error (w : World)
    (output : str) (pre post : list str) (bad : str) (e : exn)
    (st : State) :
  split_on LF output = pre ++ bad :: post ->
  Forall (fun l => line_error w l = None) pre ->
  line_error w bad = Some e ->
  (_set_env_from_output w output st).1 = Exc e
  /\ environ (_set_env_from_output w output st).2
     = assign_all (environ st) (assignments w pre).
Proof.
  intros Hsplit Hpre Hbad. unfold _set_env_from_output.
  rewrite Hsplit, for_each_app.
  destruct (for_each_assignments w pre st Hpre) as (st1 & -> & Henv & _).
  cbn [for_each]. unfold bind. rewrite set_env_line_kind.
  unfold line_error in Hbad.
  destruct (line_kind bad) as [|var val|]; [done| |].
  - destruct (environ_setitem w var val) as [e'|key]; [|done].
    by injection Hbad as ->.
  - by injection Hbad as <-.
Qed.

Lemma set_env_from_output_stops_at_first_error_witness :
  (_set_env_from_output w_posix export_nameless st0).1 = Exc OSError
  /\ environ (_set_env_from_output w_posix export_nameless st0).2
     = assign_all (environ st0)
         (assignments w_posix [u "SET DOCKER_TLS_VERIFY=1"]).
Proof.
  apply (set_env_from_output_stops_at_first_error w_posix export_nameless
           [u "SET DOCKER_TLS_VERIFY=1"]
           [u "SET DOCKER_HOST=tcp://10.0.0.1:2376"] (u "SET =x") OSError
           st0).
  - reflexivity.
  - repeat constructor; by vm_compute.
  - by vm_compute.
Defined.

(** The lines that cannot be unpacked, by their shape. *)
Lemma line_error_no_space (w : World) (line : str) :
  line <> [] -> SPACE ∉ line -> line_error w line = Some ValueError.
Proof.
  intros Hne Hsp. unfold line_error. by rewrite line_kind_no_space.
Qed.

Lemma line_error_no_equals (w : World) (cmd rest : str) :
  SPACE ∉ cmd -> lower cmd = u "set" -> EQUALS ∉ rest ->
  line_error w (cmd ++ SPACE :: rest) = Some ValueError.
Proof.
  intros Hcmd Hset Hrest. unfold line_error.
  by rewrite line_kind_no_equals.
Qed.

Example export_broken_host_not_set :
  (_set_env_from_output w_posix export_broken st0).1 = Exc ValueError
  /\ environ (_set_env_from_output w_posix export_broken st0).2
       !! u "DOCKER_HOST" = None
  /\ environ (_set_env_from_output w_posix export_broken st0).2
       !! u "DOCKER_TLS_VERIFY" = Some (u "1").
Proof. repeat split; by vm_compute. Qed.

Lemma set_env_line_additive (w : World) (line : str) (st : State)
    (k : str) :
  is_Some (environ st !! k) ->
  is_Some (environ (set_env_line w line st).2 !! k).
Proof.
  intros Hk. rewrite set_env_line_kind.
  destruct (line_kind line) as [|var val|]; [done| |done].
  destruct (environ_setitem w var val) as [e|key]; [done|].
  simpl. destruct (decide (key = k)) as [->|Hne].
  - rewrite lookup_insert_eq. eauto.
  - by rewrite lookup_insert_ne.
Qed.

(** X4: the process environment only grows: whatever the export holds and
    however its processing ends, a variable that was set before is still
    set afterwards (possibly to a new value). *)
Theorem set_env_from_output_additive (w : World) (output : str) (st : State)
    (k : str) :
  is_Some (environ st !! k) ->
  is_Some (environ (_set_env_from_output w output st).2 !! k).
Proof.
  unfold _set_env_from_output.
  generalize (split_on LF output). intros lines. revert st.
  induction lines as [|l lines IH]; intros st Hk; simpl; [done|].
  unfold bind. pose proof (set_env_line_additive w l st k Hk) as Hl.
  destruct (set_env_line w l st) as [[[]|e|] st1]; simpl in *;
    [by apply IH | done | done].
Qed.

Lemma set_env_from_output_additive_witness :
  is_Some (environ (_set_env_from_output w_posix export_broken
                      (_set_env_from_output w_posix export_mixed st0).2).2
           !! u "DOCKER_HOST").
Proof.
  apply (set_env_from_output_additive w_posix export_broken _
           (u "DOCKER_HOST")).
  vm_compute. eauto.
Defined.

(** X5: the certificate directory changes only through an assignment of
    [DOCKER_CERT_PATH]: when no line of the export assigns that variable,
    [_config_dir] is afterwards what it was, however the processing
    ends. *)
Theorem set_env_from_output_keeps_config_dir (w : World) (output : str)
    (st : State) :
  Forall (fun l => assigned_var l <> Some DOCKER_CERT_PATH)
         (split_on LF output) ->
  _config_dir (_set_env_from_output w output st).2 = _config_dir st.
Proof.
  intros HF. unfold _set_env_from_output.
  destruct (for_each (set_env_line w) (split_on LF output) st)
    as [r st'] eqn:Hrun.
  exact (for_each_other w _ st st' r HF Hrun).
Qed.

Lemma set_env_from_output_keeps_config_dir_witness :
  _config_dir (_set_env_from_output w_posix export_mixed st0).2
  = _config_dir st0.
Proof.
  apply (set_env_from_output_keeps_config_dir w_posix export_mixed st0).
  repeat constructor; by vm_compute.
Defined.

(** X6: the certificate directory is the directory of the certificate
    path.  Let the export hold a line [set DOCKER_CERT_PATH=VALUE] (the
    keyword in any letter case) such that the loop stops at no line before
    it, [os.environ] takes the assignment, and no later line assigns
    [DOCKER_CERT_PATH].  If [VALUE], its double quotes removed, reads
    [dir], the path separator, and a final segment free of separators,
    then [_config_dir] is [dir] afterwards, however the processing of the
    later lines ends. *)
Theorem set_env_from_output_config_dir (w : World) (output : str)
    (pre post : list str) (cmd val dir name key : str) (st : State) :
  split_on LF output
    = pre ++ (cmd ++ SPACE :: DOCKER_CERT_PATH ++ EQUALS :: val) :: post ->
  Forall (fun l => line_error w l = None) pre ->
  SPACE ∉ cmd -> lower cmd = u "set" ->
  environ_setitem w DOCKER_CERT_PATH val = inr key ->
  remove_char DQUOTE val = dir ++ os_path_sep w :: name ->
  os_path_sep w ∉ name ->
  Forall (fun l => assigned_var l <> Some DOCKER_CERT_PATH) post ->
  _config_dir (_set_env_from_output w output st).2 = Some dir.
Proof.
  intros Hsplit Hpre Hcmd Hset Hkey Hval Hname Hpost.
  unfold _set_env_from_output. rewrite Hsplit, for_each_app.
  destruct (for_each_assignments w pre st Hpre) as (st1 & -> & _).
  cbn [for_each]. unfold bind. rewrite set_env_line_kind.
  rewrite line_kind_assigns by (done || decide_true).
  rewrite Hkey. cbv beta iota.
  match goal with
  | |- context [for_each (set_env_line w) post ?s] =>
      destruct (for_each (set_env_line w) post s) as [r st'] eqn:Hrun
  end.
  cbn [snd].
  rewrite (for_each_other w post _ st' r Hpost Hrun). cbn [_config_dir].
  rewrite bool_decide_eq_true_2 by done.
  by rewrite Hval, dirname_of_path.
Qed.

Lemma set_env_from_output_config_dir_witness :
  _config_dir (_set_env_from_output w_windows export_windows st0).2
  = Some (u "C:\Users\golem\.docker\machine\machines").
Proof.
  apply (set_env_from_output_config_dir w_windows export_windows
           [u "SET DOCKER_TLS_VERIFY=1"] [[]]
           (u "SET") (u "C:\Users\golem\.docker\machine\machines\golem")
           (u "C:\Users\golem\.docker\machine\machines") (u "golem")
           (u "DOCKER_CERT_PATH") st0).
  - reflexivity.
  - repeat constructor; by vm_compute.
  - decide_true.
  - reflexivity.
  - by vm_compute.
  - reflexivity.
  - decide_true.
  - repeat constructor; by vm_compute.
Defined.

(** A malformed line after the assignment does not undo it. *)
Example config_dir_before_malformed_line :
  (_set_env_from_output w_posix (cert_line ++ [LF] ++ u "Usage:") st0).1
    = Exc ValueError
  /\ _config_dir
       (_set_env_from_output w_posix (cert_line ++ [LF] ++ u "Usage:") st0).2
     = Some (u "/a/b").
Proof. split; by vm_compute. Qed.

(** ** Listing, again *)

(** X7: whatever the [list] command does, [vms] makes exactly one
    external call, the [list] command without a VM name, without further
    arguments and without a timeout, and leaves the process environment
    and the certificate directory alone. *)
Theorem vms_asks_once (w : World) (st : State) :
  trace (vms w st).2 = Cmd list_command :: trace st
  /\ environ (vms w st).2 = environ st
  /\ _config_dir (vms w st).2 = _config_dir st.
Proof.
  rewrite vms_run. cbv zeta.
  destruct (completion _) as [[[|c o]|]|so]; done.
Qed.

(** X8: a listing of at most two lines (nothing but a header, with or
    without a line after it) yields the empty sequence: the first and the
    last line are never names. *)
Theorem vms_short_listing (w : World) (st : State) (output : str) :
  completion (tool w (trace st) list_command) = Exit0 (Some output) ->
  (length (split_on LF output) <= 2)%nat ->
  (vms w st).1 = Val [].
Proof.
  intros Hrun Hlen. rewrite vms_run, Hrun. cbv zeta.
  destruct output as [|c o]; [done|]. cbv beta iota.
  assert (Hinner : inner (split_on LF (c :: o)) = []).
  { unfold inner, but_last.
    destruct (split_on LF (c :: o)) as [|a [|b [|? ?]]]; simpl in *;
      [done..|lia]. }
  by rewrite Hinner.
Qed.

Lemma vms_short_listing_witness : (vms w_header_only st0).1 = Val [].
Proof.
  apply (vms_short_listing w_header_only st0
           (u "NAME   ACTIVE   DRIVER" ++ [LF])).
  - reflexivity.
  - vm_compute. lia.
Defined.

Lemma first_words_blank (data : list str) :
  forallb has_word data = false -> first_words data = inl IndexError.
Proof.
  induction data as [|l data IH]; simpl; [done|].
  rewrite first_word_first_token.
  destruct (has_word l) eqn:Hl; simpl.
  - intros Hd. destruct (has_word_first_token l Hl) as [t ->].
    by rewrite IH.
  - intros _. destruct (first_token l) as [t|] eqn:Ht; [|done].
    assert (has_word l = true) by (apply first_token_has_word; eauto).
    congruence.
Qed.

(** X9: [vms] raises [IndexError], and returns no names, as soon as one
    line between the first and the last line of a successful listing holds
    nothing but whitespace. *)
Theorem vms_blank_line_index_error (w : World) (st : State)
    (output header last : str) (data : list str) :
  completion (tool w (trace st) list_command) = Exit0 (Some output) ->
  split_on LF output = header :: data ++ [last] ->
  forallb has_word data = false ->
  (vms w st).1 = Exc IndexError.
Proof.
  intros Hrun Hsplit Hdata. rewrite vms_run, Hrun.
  destruct output as [|c o].
  - simpl in Hsplit. destruct data; discriminate.
  - cbv beta iota zeta.
    by rewrite Hsplit, inner_middle, first_words_blank.
Qed.

Lemma vms_blank_line_index_error_witness :
  (vms w_blank_listing st0).1 = Exc IndexError.
Proof.
  apply (vms_blank_line_index_error w_blank_listing st0 listing_with_blank
           (u "NAME   ACTIVE   DRIVER") []
           [u "golem  -        virtualbox"; u " "]);
    reflexivity.
Defined.

(** ** Creating, again *)

Lemma or_else_effective (w : World) (vm_name : option str) :
  or_else vm_name (_vm_name w) = effective_name w vm_name.
Proof. by destruct vm_name as [[|c s]|]. Qed.

(** X10: with acceptable keywords [create] makes exactly one external
    call: the [create] command, for the given name or, when the name is
    missing or empty, for the managed VM, with the driver as its only
    arguments, whatever the configuration holds, and without a timeout. *)
Theorem create_invokes_tool_once (w : World) (vm_name : option str)
    (params : gmap str pyval) (st : State) :
  keywords_ok w params = true ->
  trace (create w vm_name params st).2
  = Cmd {| c_name := u "create";
           c_vm := Some (effective_name w vm_name);
           c_args := [u "--driver"; DRIVER_NAME w];
           c_timeout := None |}
    :: Call_create vm_name params :: trace st.
Proof.
  intros Hok. rewrite create_run by done. cbv zeta.
  rewrite or_else_effective.
  destruct (completion _) as [out|[b|]]; [| destruct (decode_utf8 b) |];
    reflexivity.
Qed.

Lemma create_invokes_tool_once_witness :
  trace (create w_create_fails (Some [])
           {[ u "memory_size" := VInt 1024 ]} st0).2
  = Cmd {| c_name := u "create";
           c_vm := Some (effective_name w_create_fails (Some []));
           c_args := [u "--driver"; DRIVER_NAME w_create_fails];
           c_timeout := None |}
    :: Call_create (Some []) {[ u "memory_size" := VInt 1024 ]}
    :: trace st0.
Proof.
  apply (create_invokes_tool_once w_create_fails (Some [])
           {[ u "memory_size" := VInt 1024 ]} st0).
  by vm_compute.
Defined.

(** X11: with acceptable keywords, and a captured output that is absent
    or UTF-8 when the tool exits non-zero, [create] returns a boolean, and
    that boolean is [True] exactly when the tool exited with zero; the
    process environment and the certificate directory are as before. *)
Theorem create_true_iff_exit_zero (w : World) (vm_name : option str)
    (params : gmap str pyval) (st : State) :
  keywords_ok w params = true ->
  let run := tool w (trace (push_event (Call_create vm_name params) st))
                  (create_command w (effective_name w vm_name)) in
  (forall b, completion run = ExitNonZero (Some b) ->
             is_Some (decode_utf8 b)) ->
  exists created,
    (create w vm_name params st).1 = Val created
    /\ (created = true <-> exists out, completion run = Exit0 out)
    /\ environ (create w vm_name params st).2 = environ st
    /\ _config_dir (create w vm_name params st).2 = _config_dir st.
Proof.
  intros Hok run Hdec. rewrite create_run by done. cbv zeta.
  rewrite or_else_effective. cbn [trace push_log] in *. fold run.
  destruct (completion run) as [out|[b|]] eqn:Hrun.
  - exists true. repeat split; eauto.
  - destruct (Hdec b eq_refl) as [out ->]. exists false.
    repeat split; try done. by intros (? & ?).
  - exists false. repeat split; try done. by intros (? & ?).
Qed.

Lemma create_true_iff_exit_zero_witness :
  exists created,
    (create w_create_fails None ∅ st0).1 = Val created
    /\ (created = true <->
        exists out,
          completion
            (tool w_create_fails
               (trace (push_event (Call_create None ∅) st0))
               (create_command w_create_fails
                  (effective_name w_create_fails None))) = Exit0 out)
    /\ environ (create w_create_fails None ∅ st0).2 = environ st0
    /\ _config_dir (create w_create_fails None ∅ st0).2 = _config_dir st0.
Proof.
  apply (create_true_iff_exit_zero w_create_fails None ∅ st0).
  - by vm_compute.
  - intros b Hb. vm_compute in Hb. injection Hb as <-. vm_compute. eauto.
Defined.

(** What [pop_constraints] collects and what it leaves. *)
Lemma pop_constraints_fold (table : list (str * str))
    (cs ps : gmap str pyval) (k : str) :
  let r := fold_left
             (fun '(constraints, params) '(k, v) =>
                (<[k := default VNone (params !! v)]> constraints,
                 delete v params))
             table (cs, ps) in
  (is_Some (cs !! k) \/ k ∈ table.*1 -> is_Some (r.1 !! k))
  /\ (k ∉ table.*2 -> r.2 !! k = ps !! k).
Proof.
  revert cs ps. induction table as [|[k' v'] table IH]; intros cs ps; simpl.
  - split; [|done]. intros [H|H]; [done|]. by apply elem_of_nil in H.
  - destruct (IH (<[k' := default VNone (ps !! v')]> cs) (delete v' ps))
      as [H1 H2].
    split.
    + intros H. apply H1. rewrite lookup_insert_is_Some.
      destruct (decide (k' = k)) as [->|Hne]; [by left; left|].
      destruct H as [H|H]; [by left; right|].
      apply elem_of_cons in H as [H|H]; [congruence | by right].
    + intros [Hne Hnin]%not_elem_of_cons. rewrite H2 by done.
      by apply lookup_delete_ne.
Qed.

(** X12: a keyword that bears the name of a constraint, and is not one of
    the configuration keys the constraints are read from, makes [create]
    raise [TypeError] before the tool is invoked: the keyword would be
    passed to [_parse_create_params] twice. *)
Theorem create_rejects_constraint_name (w : World) (vm_name : option str)
    (params : gmap str pyval) (k : str) (st : State) :
  k ∈ (CONSTRAINT_KEYS w).*1 ->
  k ∉ (CONSTRAINT_KEYS w).*2 ->
  is_Some (params !! k) ->
  create w vm_name params st
  = (Exc TypeError, push_event (Call_create vm_name params) st).
Proof.
  intros Hkey Hval Hparam. unfold create. run.
  destruct (names_a_parameter params); [done|].
  destruct (pop_constraints_fold (CONSTRAINT_KEYS w) ∅ params k)
    as [H1 H2].
  unfold pop_constraints.
  destruct (fold_left _ (CONSTRAINT_KEYS w) (∅, params))
    as [constraints rest]. simpl in H1, H2.
  assert (Hshare : share_a_key constraints rest = true).
  { unfold share_a_key. apply negb_true_iff, bool_decide_eq_false_2.
    intros Hempty.
    assert (Hk : k ∈ dom constraints ∩ dom rest).
    { apply elem_of_intersection. split; apply elem_of_dom.
      - apply H1. by right.
      - by rewrite H2. }
    rewrite Hempty in Hk. by apply not_elem_of_empty in Hk. }
  by rewrite Hshare.
Qed.

Lemma create_rejects_constraint_name_witness :
  create w_posix None {[ u "mem" := VInt 1024 ]} st0
  = (Exc TypeError,
     push_event (Call_create None {[ u "mem" := VInt 1024 ]}) st0).
Proof.
  apply (create_rejects_constraint_name w_posix None
           {[ u "mem" := VInt 1024 ]} (u "mem") st0).
  - decide_true.
  - decide_true.
  - vm_compute. eauto.
Defined.

(** ** The port mapping, again *)

(** X13: when a lookup in the inspection result fails (no such port, no
    host binding, a host port that is no number), [get_port_mapping]
    raises the exception of that lookup, and the tool has not been asked
    for the IP address. *)
Theorem get_port_mapping_lookup_fails (w : World) (st : State)
    (container_id : str) (port : Z) (e : exn) :
  lookup_host_port w (inspect_container w (trace st) container_id) port
    = inl e ->
  get_port_mapping w container_id port st
  = (Exc e, push_event (Ext_inspect_container container_id) st).
Proof.
  unfold lookup_host_port, get_port_mapping. run.
  destruct (getitem_str _ (u "NetworkSettings")) as [e1|v1];
    [by intros [= ->]|].
  destruct (getitem_str v1 _) as [e2|v2]; [by intros [= ->]|].
  destruct (getitem_str v2 _) as [e3|v3]; [by intros [= ->]|].
  destruct (getitem_0 v3) as [e4|v4]; [by intros [= ->]|].
  destruct (getitem_str v4 _) as [e5|v5]; [by intros [= ->]|].
  destruct (py_int _ v5) as [e6|p]; [by intros [= ->] | done].
Qed.

Lemma get_port_mapping_lookup_fails_witness :
  get_port_mapping w_unpublished (u "c0ffee") 8080 st0
  = (Exc TypeError, push_event (Ext_inspect_container (u "c0ffee")) st0).
Proof.
  apply (get_port_mapping_lookup_fails w_unpublished st0 (u "c0ffee") 8080
           TypeError).
  reflexivity.
Defined.

Example get_port_mapping_unknown_port :
  (get_port_mapping w_port (u "c0ffee") 9090 st0).1 = Exc KeyError.
Proof. reflexivity. Qed.

(** X14: [get_port_mapping] does not handle a failure of the tool: when
    the lookup succeeds and the [ip] command exits non-zero, the
    [CalledProcessError] reaches the caller. *)
Theorem get_port_mapping_ip_fails (w : World) (st : State)
    (container_id : str) (port P : Z) (so : option bytes) :
  maps_port w (inspect_container w (trace st) container_id) port P ->
  completion (tool w (Ext_inspect_container container_id :: trace st)
                (ip_command w)) = ExitNonZero so ->
  (get_port_mapping w container_id port st).1
  = Exc (CalledProcessError so).
Proof.
  intros (v1 & v2 & v3 & v4 & v5 & H1 & H2 & H3 & H4 & H5 & H6) Hrun.
  unfold get_port_mapping. run.
  rewrite H1, H2, H3, H4, H5, H6.
  unfold ip_command in Hrun. unfold push_event. cbn [trace].
  by rewrite Hrun.
Qed.

Lemma get_port_mapping_ip_fails_witness :
  (get_port_mapping w_ip_fails (u "c0ffee") 8080 st0).1
  = Exc (CalledProcessError None).
Proof.
  apply (get_port_mapping_ip_fails w_ip_fails st0 (u "c0ffee") 8080 32768).
  - exists (VDict [(u "Ports",
                    VDict [(u "8080/tcp",
                            VList [VDict [(u "HostIp", VStr (u "0.0.0.0"));
                                          (u "HostPort", VStr (u "32768"))]])])]),
           (VDict [(u "8080/tcp",
                    VList [VDict [(u "HostIp", VStr (u "0.0.0.0"));
                                  (u "HostPort", VStr (u "32768"))]])]),
           (VList [VDict [(u "HostIp", VStr (u "0.0.0.0"));
                          (u "HostPort", VStr (u "32768"))]]),
           (VDict [(u "HostIp", VStr (u "0.0.0.0"));
                   (u "HostPort", VStr (u "32768"))]),
           (VStr (u "32768")).
    repeat split; reflexivity.
  - reflexivity.
Defined.

(** ** Commands *)

Lemma try_command_run (w : World) name vm args timeout (st : State) :
  let c := {| c_name := name; c_vm := vm; c_args := args;
              c_timeout := timeout |} in
  try_ (command w name vm args timeout) st
  = (Val (outcome timeout (tool w (trace st) c)), push_event (Cmd c) st).
Proof.
  unfold outcome, timed_out. run.
  destruct (match timeout with Some _ => _ | None => _ end); [done|].
  by destruct (completion _).
Qed.

(** ** Synchronising, again *)

(** One level of [_set_env], by the way the [env] command ended. *)
Lemma set_env_run (w : World) (fuel : nat) (retried : bool) (st : State) :
  _set_env w (S fuel) retried st =
  let st1 := push_event (Cmd (env_command w))
               (push_event (Call_set_env retried) st) in
  match completion (tool w (Call_set_env retried :: trace st)
                      (env_command w)) with
  | ExitNonZero so =>
      (logger WARNING (u "Failed to update env for VM: %s")
              [LExn (CalledProcessError so)] ;;
       logger DEBUG (u "DockerMachine_output: %s") [LOut so] ;;
       if negb retried then _recover w fuel false
       else logger ERROR typical_solution_s [] ;;
            raise (CalledProcessError so)) st1
  | Exit0 (Some (c :: o)) =>
      (_set_env_from_output w (c :: o) ;;
       logger INFO (u "DockerMachine: env updated") []) st1
  | Exit0 _ =>
      logger WARNING (u "DockerMachine: env update failed") [] st1
  end.
Proof.
  simpl. unfold bind at 1. unfold emit.
  unfold bind at 1. rewrite try_command_run. fold (env_command w).
  cbn [trace push_event]. unfold outcome, timed_out.
  by destruct (completion _) as [[[|c o]|]|so].
Qed.

(** X15: when the [env] command succeeds, [_set_env] attempts no recovery,
    whatever the export holds: its only external call is the [env]
    command, it ends as the processing of the export ends (so a malformed
    export makes it raise [ValueError]), and the process environment is the
    one that processing leaves. *)
Theorem set_env_with_output (w : World) (st : State) (fuel : nat)
    (retried : bool) (c : char) (o : str) :
  completion (tool w (Call_set_env retried :: trace st) (env_command w))
    = Exit0 (Some (c :: o)) ->
  let st1 := push_event (Cmd (env_command w))
               (push_event (Call_set_env retried) st) in
  (_set_env w (S fuel) retried st).1
    = (_set_env_from_output w (c :: o) st1).1
  /\ environ (_set_env w (S fuel) retried st).2
     = environ (_set_env_from_output w (c :: o) st1).2
  /\ _config_dir (_set_env w (S fuel) retried st).2
     = _config_dir (_set_env_from_output w (c :: o) st1).2
  /\ trace (_set_env w (S fuel) retried st).2
     = Cmd (env_command w) :: Call_set_env retried :: trace st.
Proof.
  intros Hrun st1. rewrite set_env_run, Hrun. cbv zeta. fold st1.
  unfold bind.
  pose proof (set_env_from_output_trace w (c :: o) st1) as Ht.
  destruct (_set_env_from_output w (c :: o) st1) as [[[]|e|] st2];
    simpl in *; rewrite ?Ht; done.
Qed.

Lemma set_env_with_output_witness :
  (_set_env w_healthy 1 false st0).1
    = (_set_env_from_output w_healthy export_three
         (push_event (Cmd (env_command w_healthy))
            (push_event (Call_set_env false) st0))).1
  /\ environ (_set_env w_healthy 1 false st0).2
     = environ (_set_env_from_output w_healthy export_three
                  (push_event (Cmd (env_command w_healthy))
                     (push_event (Call_set_env false) st0))).2
  /\ _config_dir (_set_env w_healthy 1 false st0).2
     = _config_dir (_set_env_from_output w_healthy export_three
                      (push_event (Cmd (env_command w_healthy))
                         (push_event (Call_set_env false) st0))).2
  /\ trace (_set_env w_healthy 1 false st0).2
     = Cmd (env_command w_healthy) :: Call_set_env false :: trace st0.
Proof.
  apply (set_env_with_output w_healthy st0 0 false 83
           (u "ET DOCKER_TLS_VERIFY=1" ++ [LF] ++ cert_line ++ [LF]
            ++ u "REM Run this command to configure your shell" ++ [LF])).
  reflexivity.
Defined.

(** X16: when the [env] command succeeds without output (none, or the
    empty string), [_set_env] neither raises nor recovers: it logs the
    warning that the update failed and leaves the process environment and
    the certificate directory as they were. *)
Theorem set_env_without_output (w : World) (st : State) (fuel : nat)
    (retried : bool) (out : option str) :
  completion (tool w (Call_set_env retried :: trace st) (env_command w))
    = Exit0 out ->
  out = None \/ out = Some [] ->
  _set_env w (S fuel) retried st
  = (Val tt,
     push_log {| level := WARNING;
                 msg := u "DockerMachine: env update failed"; args := [] |}
       (push_event (Cmd (env_command w))
          (push_event (Call_set_env retried) st))).
Proof.
  intros Hrun Hout. rewrite set_env_run, Hrun.
  by destruct Hout as [-> | ->].
Qed.

Lemma set_env_without_output_witness :
  _set_env w_posix 1 false st0
  = (Val tt,
     push_log {| level := WARNING;
                 msg := u "DockerMachine: env update failed"; args := [] |}
       (push_event (Cmd (env_command w_posix))
          (push_event (Call_set_env false) st0))).
Proof.
  apply (set_env_without_output w_posix st0 0 false (Some [])).
  - reflexivity.
  - by right.
Defined.

(** ** Recovery, again *)

Lemma outcome_failed (timeout : option N) (r : Run) :
  run_failed timeout r = true ->
  outcome timeout r = inl TimeoutExpired
  \/ exists so, outcome timeout r = inl (CalledProcessError so).
Proof.
  unfold run_failed, outcome.
  destruct (timed_out timeout r); [by left|].
  destruct (completion r); [done | right; eauto].
Qed.

(** One level of [_recover], by the way the regeneration ended. *)
Lemma recover_run (w : World) (fuel : nat) (restarted : bool) (st : State) :
  _recover w (S fuel) restarted st =
  let st1 := push_event (Cmd (regenerate_certs_command w))
               (push_event (Call_recover restarted) st) in
  match outcome (Some REGENERATE_CERTIFICATES_TIMEOUT)
          (tool w (Call_recover restarted :: trace st)
             (regenerate_certs_command w)) with
  | inr _ => _set_env w fuel true st1
  | inl e =>
      restart_stage w restarted (_recover w fuel true)
        (recreate_stage w (_set_env w fuel true))
        (push_log {| level := WARNING;
                     msg := u "Failed to regenerate certificates: %s -- %s";
                     args := [LExn e;
                              LOut (match e with
                                    | CalledProcessError so => so
                                    | _ => None
                                    end)] |} st1)
  end.
Proof.
  simpl. unfold bind at 1. unfold emit.
  unfold bind at 1. rewrite try_command_run.
  fold (regenerate_certs_command w). cbn [trace push_event].
  unfold outcome, timed_out.
  destruct (_ <? _); [reflexivity|]. by destruct (completion _).
Qed.

(** The middle stage, by the way the restart ended. *)
Lemma restart_stage_run (w : World) (again recreate : M unit) (st : State) :
  restart_stage w false again recreate st =
  let st1 := push_event (Cmd (restart_command w)) st in
  match outcome (Some RESTART_VM_TIMEOUT)
          (tool w (trace st) (restart_command w)) with
  | inr _ => again st1
  | inl e =>
      recreate
        (push_log {| level := WARNING;
                     msg := u "Failed to regenerate certificates: %s -- %s";
                     args := [LExn e;
                              LOut (match e with
                                    | CalledProcessError so => so
                                    | _ => None
                                    end)] |} st1)
  end.
Proof.
  unfold restart_stage. cbn [negb].
  unfold bind at 1. cbv beta. rewrite try_command_run.
  fold (restart_command w).
  unfold outcome, timed_out.
  destruct (_ <? _); [reflexivity|]. by destruct (completion _).
Qed.

(** The last stage when the removal does not succeed. *)
Lemma recreate_stage_not_removed (w : World) (final : M unit) (st : State) :
  base_remove w (trace st) (_vm_name w) <> Ret true ->
  exists st1,
    recreate_stage w final st = final st1
    /\ trace st1 = Ext_remove (_vm_name w) :: trace st
    /\ environ st1 = environ st /\ _config_dir st1 = _config_dir st.
Proof.
  intros Hrm. unfold recreate_stage, remove. run.
  destruct (base_remove w (trace st) (_vm_name w)) as [[|]|so]; [done| |];
    eexists; split; try reflexivity; done.
Qed.

(** X17: when the regeneration of the certificates fails (it exits
    non-zero or exceeds its timeout) and the restart then succeeds within
    its timeout, [_recover] does nothing but begin again with
    [restarted=True]: between the two entries lie exactly the two commands,
    and neither the process environment nor the certificate directory has
    changed. *)
Theorem recover_restart_then_again (w : World) (st : State) (fuel : nat) :
  run_failed (Some REGENERATE_CERTIFICATES_TIMEOUT)
    (tool w (Call_recover false :: trace st) (regenerate_certs_command w))
    = true ->
  run_failed (Some RESTART_VM_TIMEOUT)
    (tool w (Cmd (regenerate_certs_command w) :: Call_recover false
             :: trace st) (restart_command w))
    = false ->
  exists st',
    _recover w (S fuel) false st = _recover w fuel true st'
    /\ trace st' = Cmd (restart_command w)
                   :: Cmd (regenerate_certs_command w)
                   :: Call_recover false :: trace st
    /\ environ st' = environ st /\ _config_dir st' = _config_dir st.
Proof.
  intros Hregen Hrestart. rewrite recover_run. cbv zeta.
  unfold run_failed in Hregen.
  destruct (outcome _ (tool w (Call_recover false :: trace st) _))
    as [e|out]; [|done].
  rewrite restart_stage_run. cbv zeta. cbn [trace push_log push_event].
  unfold run_failed in Hrestart.
  destruct (outcome _ (tool w (Cmd _ :: _) _)) as [e'|out]; [done|].
  eexists. split; [reflexivity|]. done.
Qed.

Lemma recover_restart_then_again_witness :
  exists st',
    _recover w_restartable 1 false st0 = _recover w_restartable 0 true st'
    /\ trace st' = Cmd (restart_command w_restartable)
                   :: Cmd (regenerate_certs_command w_restartable)
                   :: Call_recover false :: trace st0
    /\ environ st' = environ st0 /\ _config_dir st' = _config_dir st0.
Proof.
  apply (recover_restart_then_again w_restartable st0 0); reflexivity.
Defined.

(** X18: the VM is re-created only after it has been removed.  When the
    regeneration fails in a recovery with [restarted=True] and the removal
    returns [False] or exits non-zero, [_recover] goes on to the retried
    [_set_env] having made no further external call: no restart and no
    creation. *)
Theorem recover_not_removed (w : World) (st : State) (fuel : nat) :
  run_failed (Some REGENERATE_CERTIFICATES_TIMEOUT)
    (tool w (Call_recover true :: trace st) (regenerate_certs_command w))
    = true ->
  base_remove w (Cmd (regenerate_certs_command w) :: Call_recover true
                 :: trace st) (_vm_name w) <> Ret true ->
  exists st',
    _recover w (S fuel) true st = _set_env w fuel true st'
    /\ trace st' = Ext_remove (_vm_name w)
                   :: Cmd (regenerate_certs_command w)
                   :: Call_recover true :: trace st
    /\ environ st' = environ st /\ _config_dir st' = _config_dir st.
Proof.
  intros Hregen Hrm. rewrite recover_run. cbv zeta.
  unfold run_failed in Hregen.
  destruct (outcome _ (tool w (Call_recover true :: trace st) _))
    as [e|out]; [|done].
  unfold restart_stage. cbn [negb].
  edestruct (recreate_stage_not_removed w (_set_env w fuel true))
    as (st1 & -> & Ht & He & Hc); [exact Hrm|].
  exists st1. done.
Qed.

Lemma recover_not_removed_witness :
  exists st',
    _recover w_stuck 1 true st0 = _set_env w_stuck 0 true st'
    /\ trace st' = Ext_remove (_vm_name w_stuck)
                   :: Cmd (regenerate_certs_command w_stuck)
                   :: Call_recover true :: trace st0
    /\ environ st' = environ st0 /\ _config_dir st' = _config_dir st0.
Proof.
  apply (recover_not_removed w_stuck st0 0); [reflexivity|].
  by vm_compute.
Defined.

(** X19: unless [create] raises [UnicodeDecodeError], the cascade ends in
    the retried [_set_env]: the newest events of [_recover] are the entry
    into [_set_env(retried=True)] and its [env] command, and there has been
    no other such entry. *)
Theorem recover_ends_in_retried_set_env (w : World) (st : State) (n : nat) :
  (_recover w (3 + n) false st).1 <> Exc UnicodeDecodeError ->
  exists evs,
    trace (_recover w (3 + n) false st).2
      = Cmd (env_command w) :: Call_set_env true :: evs ++ trace st
    /\ count is_retried_set_env evs = 0%nat.
Proof.
  intros Hne.
  destruct (recover_ends_with_set_env w st n)
    as [(evs & _ & _ & He)|H]; [done | exact H].
Qed.

Lemma recover_ends_in_retried_set_env_witness :
  exists evs,
    trace (_recover w_stuck (3 + 0) false st0).2
      = Cmd (env_command w_stuck) :: Call_set_env true :: evs ++ trace st0
    /\ count is_retried_set_env evs = 0%nat.
Proof.
  apply (recover_ends_in_retried_set_env w_stuck st0 0).
  by vm_compute.
Defined.

Example recover_stuck_trace :
  trace (_recover w_stuck 3 false st0).2
  = [Cmd (env_command w_stuck); Call_set_env true;
     Ext_remove (u "golem");
     Cmd (restart_command w_stuck);
     Cmd (regenerate_certs_command w_stuck);
     Call_recover false]
  /\ (_recover w_stuck 3 false st0).1 = Exc (CalledProcessError None).
Proof. split; by vm_compute. Qed.

(** ** The whole synchronisation *)

(** X20: a synchronisation [_set_env(retried=False)] always ends (fuel
    for four calls is enough, whatever the tool answers), and in its course
    [_set_env] is entered at most twice, [_recover] at most twice, and the
    VM is restarted at most once. *)
Theorem set_env_ends (w : World) (st : State) (n : nat) :
  exists evs,
    trace (_set_env w (4 + n) false st).2 = evs ++ trace st
    /\ (count is_set_env_call evs <= 2)%nat
    /\ (count is_recover_call evs <= 2)%nat
    /\ (count is_restart evs <= 1)%nat
    /\ (_set_env w (4 + n) false st).1 <> Fuel.
Proof.
  assert (Hcmd : forall c, c_name c <> u "restart" ->
                           is_restart (Cmd c) = false).
  { intros c Hc. simpl. by apply bool_decide_eq_false_2. }
  change (4 + n)%nat with (S (S (S (S n)))).
  destruct (set_env_first_bounded w is_set_env_call (S (S (S n))) _
              ltac:(done)
              (cascade_bounded w is_set_env_call
                 ltac:(done) ltac:(done) ltac:(done) n) st)
    as (evs & Ht & Hc & Hf).
  destruct (set_env_first_bounded w is_recover_call (S (S (S n))) _
              ltac:(done)
              (cascade_bounded w is_recover_call
                 ltac:(done) ltac:(done) ltac:(done) n) st)
    as (evs2 & Ht2 & Hc2 & _).
  destruct (set_env_first_bounded w is_restart (S (S (S n))) _ Hcmd
              (cascade_bounded w is_restart Hcmd
                 ltac:(done) ltac:(done) n) st)
    as (evs3 & Ht3 & Hc3 & _).
  assert (evs2 = evs) as ->
    by (apply (app_inv_tail (trace st)); by rewrite <- Ht, <- Ht2).
  assert (evs3 = evs) as ->
    by (apply (app_inv_tail (trace st)); by rewrite <- Ht, <- Ht3).
  exists evs. repeat split; [done | exact Hc | exact Hc2 | exact Hc3 | done].
Qed.

(** ** Setting up, again *)

(** X21: when the managed name is among the names that [vms] returns,
    [setup] goes straight from the listing to the question whether the VM
    runs; a running VM is synchronised at once, a stopped one is restored
    first, and when either inherited call fails its error reaches the
    caller and no synchronisation is attempted.  [setup] ends, and in the
    whole run the configuration is never fetched; [create] is not called
    by [setup] itself and is entered at most once, as
    [create(self._vm_name)] in the recovery of the synchronisation. *)
Theorem setup_listed_vm (w : World) (fuel n : nat) (st st1 : State)
    (names : list str) :
  vms w st = (Val names, st1) ->
  _vm_name w ∈ names ->
  trace st1 = Cmd list_command :: trace st
  /\ setup w fuel st =
     (let st2 := push_event Ext_vm_running st1 in
      match base_vm_running w (trace st1) with
      | Ret true => _set_env w fuel false st2
      | Ret false =>
          let st3 := push_event Ext_restore_vm st2 in
          match base_restore_vm w (trace st2) with
          | Ret _ => _set_env w fuel false st3
          | Fails so => (Exc (CalledProcessError so), st3)
          end
      | Fails so => (Exc (CalledProcessError so), st2)
      end)
  /\ exists evs,
       trace (setup w (4 + n) st).2 = evs ++ trace st1
       /\ count is_get_config evs = 0%nat
       /\ (count is_create_call evs <= 1)%nat
       /\ Forall (fun ev => is_create_call ev = true ->
                            ev = Call_create (Some (_vm_name w)) ∅) evs
       /\ (setup w (4 + n) st).1 <> Fuel.
Proof.
  intros Hvms Hin.
  assert (Hrest : forall fuel', setup w fuel' st =
            (running <- vm_running w ;;
             (if negb running then restore_vm w else ret tt) ;;
             _set_env w fuel' false) st1).
  { intros fuel'. unfold setup, bind at 1. rewrite Hvms.
    rewrite bool_decide_eq_false_2 by (intros H; by apply H).
    reflexivity. }
  split; [|split].
  - pose proof (vms_trace w st) as Hrun. by rewrite Hvms in Hrun.
  - rewrite Hrest. unfold vm_running, restore_vm. run.
    destruct (base_vm_running w (trace st1)) as [[|]|so]; try reflexivity.
    cbn [negb trace push_event].
    destruct (base_restore_vm w _) as [[]|so]; reflexivity.
  - rewrite Hrest. apply setup_rest_creates.
Qed.

Lemma setup_listed_vm_witness :
  exists evs,
    trace (setup w_stuck_listed 4 st0).2
      = evs ++ trace (push_event (Cmd list_command) st0)
    /\ count is_get_config evs = 0%nat
    /\ (count is_create_call evs <= 1)%nat
    /\ Forall (fun ev => is_create_call ev = true ->
                         ev = Call_create (Some (_vm_name w_stuck_listed)) ∅)
              evs
    /\ (setup w_stuck_listed 4 st0).1 <> Fuel.
Proof.
  assert (Hin : _vm_name w_stuck_listed ∈ [u "golem"; u "other"])
    by decide_true.
  destruct (setup_listed_vm w_stuck_listed 4 0 st0
              (push_event (Cmd list_command) st0) [u "golem"; u "other"]
              eq_refl Hin) as (_ & _ & H).
  exact H.
Defined.

(** A listed VM that the recovery re-creates: one entry into [create]. *)
Example setup_listed_vm_recreated :
  trace (setup w_stuck_listed 4 st0).2
  = [Cmd (env_command w_stuck_listed); Call_set_env true;
     Cmd (create_command w_stuck_listed (u "golem"));
     Call_create (Some (u "golem")) ∅;
     Ext_remove (u "golem");
     Cmd (restart_command w_stuck_listed);
     Cmd (regenerate_certs_command w_stuck_listed);
     Call_recover false;
     Cmd (env_command w_stuck_listed); Call_set_env false;
     Ext_vm_running;
     Cmd list_command].
Proof. by vm_compute. Qed.

Example setup_stopped_vm :
  (setup w_stopped 4 st0).1 = Exc (CalledProcessError None)
  /\ trace (setup w_stopped 4 st0).2
     = [Ext_restore_vm; Ext_vm_running; Cmd list_command].
Proof. split; by vm_compute. Qed.

Example setup_healthy_vm :
  (setup w_healthy 4 st0).1 = Val tt
  /\ _config_dir (setup w_healthy 4 st0).2 = Some (u "/a/b")
  /\ trace (setup w_healthy 4 st0).2
     = [Cmd (env_command w_healthy); Call_set_env false; Ext_vm_running;
        Cmd list_command].
Proof. repeat split; by vm_compute. Qed.

(** ** Restarting in a context *)

(** X22: after a block that ends normally, [restart_ctx] leaves the
    context of the inherited [restart_ctx] and then synchronises the
    environment: it ends as that [_set_env] ends, so an error of the
    synchronisation reaches the caller. *)
Theorem restart_ctx_syncs_after_normal_exit {R A} (w : World) (fuel : nat)
    (super_restart_ctx : option str -> ContextManager R)
    (name : option str) (body : R -> M A)
    (st st1 st2 st3 : State) (res : R) (a : A) (b : bool) :
  cm_enter (super_restart_ctx name) st = (Val res, st1) ->
  body res st1 = (Val a, st2) ->
  cm_exit (super_restart_ctx name) None st2 = (Val b, st3) ->
  restart_ctx w fuel super_restart_ctx name body st =
  match _set_env w fuel false st3 with
  | (Val _, st4) => (Val (Some a), st4)
  | (Exc e, st4) => (Exc e, st4)
  | (Fuel, st4) => (Fuel, st4)
  end.
Proof.
  intros Henter Hbody Hexit. unfold restart_ctx, with_, bind, try_.
  rewrite Henter, Hbody, Hexit. simpl.
  by destruct (_set_env w fuel false st3) as [[[]|e|] st4].
Qed.

Lemma restart_ctx_syncs_after_normal_exit_witness :
  restart_ctx w_healthy 4 (stop_start w_healthy) None
              (fun _ : unit => ret 7%Z) st0 =
  match _set_env w_healthy 4 false
          (push_event (Cmd {| c_name := u "start"; c_vm := None;
                              c_args := []; c_timeout := None |})
             (push_event (Cmd {| c_name := u "stop"; c_vm := None;
                                 c_args := []; c_timeout := None |}) st0))
  with
  | (Val _, st4) => (Val (Some 7%Z), st4)
  | (Exc e, st4) => (Exc e, st4)
  | (Fuel, st4) => (Fuel, st4)
  end.
Proof.
  apply (restart_ctx_syncs_after_normal_exit w_healthy 4
           (stop_start w_healthy) None (fun _ : unit => ret 7%Z) st0
           (push_event (Cmd {| c_name := u "stop"; c_vm := None;
                               c_args := []; c_timeout := None |}) st0)
           (push_event (Cmd {| c_name := u "stop"; c_vm := None;
                               c_args := []; c_timeout := None |}) st0)
           _ tt 7%Z false); reflexivity.
Defined.

(** X23: after a block that raises an exception which the context of the
    inherited [restart_ctx] does not suppress, [restart_ctx] lets the
    exception reach the caller and does not synchronise the environment:
    the state is the one in which the inherited context was left. *)
Theorem restart_ctx_no_sync_after_exception {R A} (w : World) (fuel : nat)
    (super_restart_ctx : option str -> ContextManager R)
    (name : option str) (body : R -> M A)
    (st st1 st2 st3 : State) (res : R) (e : exn) :
  cm_enter (super_restart_ctx name) st = (Val res, st1) ->
  body res st1 = (Exc e, st2) ->
  cm_exit (super_restart_ctx name) (Some e) st2 = (Val false, st3) ->
  restart_ctx w fuel super_restart_ctx name body st = (Exc e, st3).
Proof.
  intros Henter Hbody Hexit. unfold restart_ctx, with_, bind, try_.
  by rewrite Henter, Hbody, Hexit.
Qed.

Lemma restart_ctx_no_sync_after_exception_witness :
  restart_ctx w_healthy 4 (stop_start w_healthy) None
              (fun _ : unit => @raise Z KeyError) st0
  = (Exc KeyError,
     push_event (Cmd {| c_name := u "start"; c_vm := None;
                        c_args := []; c_timeout := None |})
       (push_event (Cmd {| c_name := u "stop"; c_vm := None;
                           c_args := []; c_timeout := None |}) st0)).
Proof.
  apply (restart_ctx_no_sync_after_exception w_healthy 4
           (stop_start w_healthy) None (fun _ : unit => @raise Z KeyError)
           st0
           (push_event (Cmd {| c_name := u "stop"; c_vm := None;
                               c_args := []; c_timeout := None |}) st0)
           (push_event (Cmd {| c_name := u "stop"; c_vm := None;
                               c_args := []; c_timeout := None |}) st0)
           _ tt KeyError); reflexivity.
Defined.

Example restart_ctx_normal :
  (restart_ctx w_healthy 4 (stop_start w_healthy) None
               (fun _ : unit => ret 7%Z) st0).1 = Val (Some 7%Z)
  /\ trace (restart_ctx w_healthy 4 (stop_start w_healthy) None
                        (fun _ : unit => ret 7%Z) st0).2
     = [Cmd (env_command w_healthy); Call_set_env false;
        Cmd {| c_name := u "start"; c_vm := None; c_args := [];
               c_timeout := None |};
        Cmd {| c_name := u "stop"; c_vm := None; c_args := [];
               c_timeout := None |}].
Proof. split; by vm_compute. Qed.

Example restart_ctx_block_raises :
  (restart_ctx w_healthy 4 (stop_start w_healthy) None
               (fun _ : unit => @raise Z KeyError) st0).1 = Exc KeyError
  /\ trace (restart_ctx w_healthy 4 (stop_start w_healthy) None
                        (fun _ : unit => @raise Z KeyError) st0).2
     = [Cmd {| c_name := u "start"; c_vm := None; c_args := [];
               c_timeout := None |};
        Cmd {| c_name := u "stop"; c_vm := None; c_args := [];
               c_timeout := None |}].
Proof. split; by vm_compute. Qed.

(** ** What is returned *)

Lemma word_no_space (s : str) : Forall (fun c => isspace c = false) (word s).
Proof.
  induction s as [|c s IH]; simpl; [constructor|].
  destruct (isspace c) eqn:Hc; [constructor | by constructor].
Qed.

Lemma first_token_shape (l t : str) :
  first_token l = Some t ->
  t <> [] /\ Forall (fun c => isspace c = false) t.
Proof.
  unfold first_token. pose proof (word_no_space (lstrip l)) as Hw.
  destruct (word (lstrip l)) as [|c s]; [done|].
  intros [= <-]. done.
Qed.

Lemma first_words_shape (lines : list str) (names : list str) :
  first_words lines = inr names ->
  Forall (fun n => n <> [] /\ Forall (fun c => isspace c = false) n) names.
Proof.
  revert names. induction lines as [|l lines IH]; intros names; simpl.
  - intros [= <-]. constructor.
  - rewrite first_word_first_token.
    destruct (first_token l) as [t|] eqn:Ht; [|done].
    destruct (first_words lines) as [e|ns]; [done|].
    intros [= <-]. constructor; [by eapply first_token_shape | by apply IH].
Qed.

(** X24: every name that [vms] returns is non-empty and holds no
    whitespace. *)
Theorem vms_names_are_words (w : World) (st : State) (names : list str) :
  (vms w st).1 = Val names ->
  Forall (fun n => n <> [] /\ Forall (fun c => isspace c = false) n) names.
Proof.
  rewrite vms_run. cbv zeta.
  destruct (completion _) as [[[|c o]|]|so]; simpl;
    try (intros [= <-]; constructor).
  destruct (first_words _) as [e|ns] eqn:Hns; [done|].
  intros [= <-]. by eapply first_words_shape.
Qed.

Lemma vms_names_are_words_witness :
  Forall (fun n => n <> [] /\ Forall (fun c => isspace c = false) n)
         [u "golem"; u "other"].
Proof.
  apply (vms_names_are_words w_listing_two st0 [u "golem"; u "other"]).
  reflexivity.
Defined.

Lemma find_ip_sound (w : World) (lines : list str) (L : str) :
  find_ip w lines = Some L ->
  L ∈ lines /\ ip_address w L = true
  /\ exists c rest, L = c :: rest /\ isnumeric w c = true.
Proof.
  induction lines as [|line lines IH]; simpl; [done|].
  intros H.
  assert (Hrest : find_ip w lines = Some L ->
                  L ∈ line :: lines /\ ip_address w L = true
                  /\ exists c rest, L = c :: rest /\ isnumeric w c = true).
  { intros H'. destruct (IH H') as (Hin & Hip & Hnum).
    split; [by right | done]. }
  destruct line as [|c line]; [by apply Hrest|].
  destruct (isnumeric w c) eqn:Hc; [|by apply Hrest].
  destruct (ip_address w (c :: line)) eqn:Hip; [|by apply Hrest].
  injection H as <-. split; [by left|]. split; [done|]. eauto.
Qed.

(** X25: whatever [get_port_mapping] returns has been checked: the
    address is a line of the output of the [ip] command that starts with a
    numeric character and that [ipaddress.ip_address] accepts, and the
    port is the integer value of the host port found by the lookup. *)
Theorem get_port_mapping_returns_checked (w : World) (st : State)
    (container_id : str) (port P : Z) (L : str) :
  (get_port_mapping w container_id port st).1 = Val (L, P) ->
  ip_address w L = true
  /\ (exists c rest, L = c :: rest /\ isnumeric w c = true)
  /\ (exists raw_ip,
        completion (tool w (Ext_inspect_container container_id :: trace st)
                      (ip_command w)) = Exit0 (Some raw_ip)
        /\ L ∈ splitlines raw_ip)
  /\ lookup_host_port w (inspect_container w (trace st) container_id) port
     = inr P.
Proof.
  unfold get_port_mapping, lookup_host_port. run.
  destruct (getitem_str _ (u "NetworkSettings")) as [e1|v1]; [done|].
  destruct (getitem_str v1 _) as [e2|v2]; [done|].
  destruct (getitem_str v2 _) as [e3|v3]; [done|].
  destruct (getitem_0 v3) as [e4|v4]; [done|].
  destruct (getitem_str v4 _) as [e5|v5]; [done|].
  destruct (py_int _ v5) as [e6|p]; [done|].
  unfold push_event. cbn [trace]. fold (ip_command w).
  destruct (completion _) as [[raw_ip|]|so]; [|done..].
  destruct (find_ip w (splitlines raw_ip)) as [ip|] eqn:Hip; [|done].
  intros [= -> ->].
  destruct (find_ip_sound w _ _ Hip) as (Hin & Hok & Hnum).
  repeat split; eauto.
Qed.

Lemma get_port_mapping_returns_checked_witness :
  ip_address w_port (u "192.168.99.100") = true
  /\ (exists c rest,
        u "192.168.99.100" = c :: rest /\ isnumeric w_port c = true)
  /\ (exists raw_ip,
        completion (tool w_port
                      (Ext_inspect_container (u "c0ffee") :: trace st0)
                      (ip_command w_port)) = Exit0 (Some raw_ip)
        /\ u "192.168.99.100" ∈ splitlines raw_ip)
  /\ lookup_host_port w_port
       (inspect_container w_port (trace st0) (u "c0ffee")) 8080
     = inr 32768%Z.
Proof.
  apply (get_port_mapping_returns_checked w_port st0 (u "c0ffee") 8080
           32768 (u "192.168.99.100")).
  reflexivity.
Defined.
